(** * gofr: error classification and response dispatch, and the MQTT publisher

    A shallow embedding of [Handler.ServeHTTP], [processErrors],
    [incrPrometheusCounter] and [evaluateTimeAndTimeZone] of package [gofr]
    (the HTTP handler file), and of [MQTT.PublishEvent] of package [mqtt]
    ([pkg/datastore/pubsub/mqtt/mqtt.go]), with the properties the
    specification states about them; then of the rest of the adapter
    ([New], [Subscribe], [Ping], [HealthCheck], [IsSet]), with properties
    read off the code.

    Conventions of the embedding:
    - a Go [int] is a [Z]; a Go [string] is a [string];
    - a Go [error] interface value is an element of [errors.error], one
      constructor per dynamic type the code distinguishes; a nil interface is
      [None] of [option errors.error];
    - [*errors.Response] is a location into a store of [errors.Response]
      records, so that the assignment through the pointer on line 93 of the
      handler file is an update of the caller's object, and [&errResp] is a
      fresh location; the pointer is not nil;
    - the [Error()] methods belong to package [errors], whose source is not
      at hand: they are a parameter [Error] of the development, as is the
      clock;
    - the logger, the Prometheus counter vector, the request context and the
      response writer are observed through the ordered list of calls made on
      them;
    - [time.Now()] is a stream of readings indexed by the number of readings
      taken so far. *)

From stdpp Require Import gmap strings list fin_maps.
From Stdlib Require Import ZArith.
From Stdlib Require Import DecimalString.

#[local] Set Warnings "-register-all".

Open Scope Z_scope.
Open Scope string_scope.
Open Scope list_scope.

(** ** Package [errors]: the data the handler inspects *)

Module errors.

Definition loc := positive.

(** [errors.DateTime]: the fields [Value] and [TimeZone], promoted into
    [errors.Response] by embedding. *)
Record DateTime := mkDateTime {
  Value : string;
  TimeZone : string
}.

Section Response.
(** The values a Go [interface{}] may hold are left abstract. *)
Context {any : Type}.

Record Response := mkResponse {
  StatusCode : Z;
  Code : string;
  Reason : string;
  ResourceID : string;
  Detail : option any;
  Path : string;
  RootCauses : list (gmap string any);
  dateTime : DateTime
}.

(** [errors.Response{}] and [var errResp errors.Response]. *)
Definition zeroResponse : Response :=
  mkResponse 0 "" "" "" None "" [] (mkDateTime "" "").

Definition setDateTime (r : Response) (d : DateTime) : Response :=
  mkResponse (StatusCode r) (Code r) (Reason r) (ResourceID r) (Detail r)
             (Path r) (RootCauses r) d.

Definition setReason (r : Response) (s : string) : Response :=
  mkResponse (StatusCode r) (Code r) s (ResourceID r) (Detail r)
             (Path r) (RootCauses r) (dateTime r).

Definition setStatusCode (r : Response) (n : Z) : Response :=
  mkResponse n (Code r) (Reason r) (ResourceID r) (Detail r)
             (Path r) (RootCauses r) (dateTime r).

Definition setCode (r : Response) (s : string) : Response :=
  mkResponse (StatusCode r) s (Reason r) (ResourceID r) (Detail r)
             (Path r) (RootCauses r) (dateTime r).
End Response.
Arguments Response : clear implicits.

(** The dynamic types of an [error] value that the handler tells apart.
    [ResponsePtr] is [*errors.Response]; [Unclassified] stands for a value
    of any other type, identified by an opaque tag. *)
Inductive error : Type :=
| InvalidParam (Param : list string)
| MissingParam (Param : list string)
| EntityNotFound (Entity ID : string)
| FileNotFound (FileName Path : string)
| MethodMissing (Method URL : string)
| ResponsePtr (v : loc)
| Multiple (StatusCode : Z) (Errors : list error)
| DB (Err : option error)
| Raw (StatusCode : Z) (Err : option error)
| EntityAlreadyExists
| Unclassified (tag : string).

(** The struct [errors.MultipleErrors]; as an [error] value it is
    [Multiple]. *)
Record MultipleErrors := mkMultipleErrors {
  MStatusCode : Z;
  Errors : list error
}.

Definition asError (m : MultipleErrors) : error :=
  Multiple (MStatusCode m) (Errors m).

(** The errors of a (possibly nested) [MultipleErrors] that are not
    themselves [MultipleErrors], from left to right; any other error is its
    own single leaf. *)
Fixpoint leaves (e : error) : list error :=
  match e with
  | Multiple _ errs => flat_map leaves errs
  | _ => [e]
  end.

End errors.

Import errors.

(** ** Package [net/http] and [strings]: what the handler uses of them *)

Module http.
Definition StatusBadRequest : Z := 400.
Definition StatusNotFound : Z := 404.
Definition StatusMethodNotAllowed : Z := 405.
Definition StatusInternalServerError : Z := 500.
End http.

Module strings.
Definition HasSuffix (s suffix : string) : bool :=
  (String.length suffix <=? String.length s)%nat
  && String.eqb
       (String.substring (String.length s - String.length suffix)
                  (String.length suffix) s)
       suffix.

Definition TrimSuffix (s suffix : string) : string :=
  if HasSuffix s suffix
  then String.substring 0 (String.length s - String.length suffix) s
  else s.
End strings.

(** ** Package [gofr]: the handler *)

(** What the handler reads off a [time.Time]: [now.UTC().Format(time.RFC3339)]
    and the name returned by [now.Zone()]. *)
Record Time := mkTime {
  UTC_Format_RFC3339 : string;
  Zone : string
}.

Record prometheusLabel := mkLabel {
  labelType : string;
  path : string;
  method : string
}.

Section gofr.
Context {any : Type}.

(** The value a handler returns next to its error, by the dynamic types the
    type switch of [ServeHTTP] tells apart. *)
Inductive data : Type :=
| Nil
| types_Response (res : any)
| template_Template (res : any)
| template_File (res : any)
| types_ResponsePtr (res : any)
| types_RawWithOptions (res : any)
| types_Raw (Data : data)
| OtherData (d : any).

(** The first argument of [c.resp.Respond]. *)
Inductive responded : Type :=
| AddressOf (res : any)              (* [&res], [res] a [types.Response] *)
| Same (res : data)                  (* [res] *)
| NewResponse (Data : data).         (* [&types.Response{Data: data}] *)

(** Calls on the collaborators, in the order they are made. *)
Inductive call : Type :=
| Logger_Errorf (format arg : string)
| ErrorTypesStats_Inc (label : prometheusLabel)
| WithErrorMessage (msg : string)
| Respond (res : responded) (err : option error).

Record World := mkWorld {
  readings : nat;                       (* readings of [time.Now()] so far *)
  store : gmap loc (Response any);      (* the [errors.Response] objects *)
  calls : list call
}.

(** State passing. *)
Definition M (A : Type) : Type := World → A * World.

Definition ret {A} (a : A) : M A := λ w, (a, w).

Definition bind {A B} (m : M A) (k : A → M B) : M B :=
  λ w, let '(a, w') := m w in k a w'.

Notation "'do' x <- m ;; k" := (bind m (λ x, k))
  (at level 10, x pattern, m at level 99, k at level 200, only parsing).

Definition emit (c : call) : M unit :=
  λ w, (tt, mkWorld (readings w) (store w) (calls w ++ [c])).

#[global] Instance Response_inhabited : Inhabited (Response any) :=
  populate zeroResponse.

(** [*v] *)
Definition load (v : loc) : M (Response any) :=
  λ w, (store w !!! v, w).

(** [v.DateTime = d] *)
Definition assignDateTime (v : loc) (d : DateTime) : M unit :=
  λ w, (tt, mkWorld (readings w)
                    (<[v := setDateTime (store w !!! v) d]> (store w))
                    (calls w)).

(** [&errResp], for an [errResp] that escapes: a new object. *)
Definition addressOf (r : Response any) : M loc :=
  λ w, let p := fresh (dom (store w)) in
       (p, mkWorld (readings w) (<[p := r]> (store w)) (calls w)).

(** The environment: the clock, and the [Error()] method of each error
    value, which may read through the pointers the value holds. *)
Context (clock : nat → Time).
Context (Error : gmap loc (Response any) → error → string).

Definition time_Now : M Time :=
  λ w, (clock (readings w), mkWorld (S (readings w)) (store w) (calls w)).

(** [err.Error()] *)
Definition err_Error (err : error) : M string :=
  λ w, (Error (store w) err, w).

Definition evaluateTimeAndTimeZone : M (string * string) :=
  do now <- time_Now ;;
  let formattedTime := UTC_Format_RFC3339 now in
  let timeZone := Zone now in
  ret (formattedTime, timeZone).

Definition incrPrometheusCounter (isPartialError : bool)
    (errResp : Response any) (label : prometheusLabel) : M unit :=
  if (bool_decide (StatusCode errResp = http.StatusInternalServerError)
      || bool_decide (StatusCode errResp = 0))
     && negb isPartialError
  then
    do _ <- emit (Logger_Errorf "error occurred %v" (Reason errResp)) ;;
    emit (ErrorTypesStats_Inc
            (mkLabel (labelType label) (path label) (method label)))
  else ret tt.

(** The type switch either returns from the function ([inl]) or falls
    through to the final [return] with the [errResp] it has built
    ([inr]). *)
Fixpoint processErrors (err : error) (path method : string)
    (isPartialError : bool) {struct err} : M MultipleErrors :=
  do (value, timeZone) <- evaluateTimeAndTimeZone ;;
  do reason <- err_Error err ;;
  let errResp :=
    setReason (setDateTime zeroResponse (mkDateTime value timeZone)) reason in
  do switch <-
    match err with
    | InvalidParam _ =>
        ret (inr (setCode (setStatusCode errResp http.StatusBadRequest)
                          "Invalid Parameter"))
    | MissingParam _ =>
        ret (inr (setCode (setStatusCode errResp http.StatusBadRequest)
                          "Missing Parameter"))
    | EntityNotFound _ _ =>
        ret (inr (setCode (setStatusCode errResp http.StatusNotFound)
                          "Entity Not Found"))
    | FileNotFound _ _ =>
        ret (inr (setCode (setStatusCode errResp http.StatusNotFound)
                          "File Not Found"))
    | MethodMissing _ _ =>
        ret (inr (setCode (setStatusCode errResp http.StatusMethodNotAllowed)
                          "Method not allowed"))
    | ResponsePtr v =>
        do pointee <- load v ;;
        do _ <- (if bool_decide (Value (dateTime pointee) = "")
                 then assignDateTime v (dateTime errResp)
                 else ret tt) ;;
        do _ <- incrPrometheusCounter isPartialError errResp
                  (mkLabel "Unknown Error" path method) ;;
        do pointee <- load v ;;
        ret (inr pointee)
    | Multiple statusCode errs =>
        do now <- time_Now ;;
        let timeZone := Zone now in
        do finalErrs <-
          (fix range (l : list error) (finalErrs : list error)
             : M (list error) :=
             match l with
             | [] => ret finalErrs
             | v :: l' =>
                 let resp : Response any :=
                   setDateTime zeroResponse
                     (mkDateTime (UTC_Format_RFC3339 now) timeZone) in
                 do errs <- processErrors v path method isPartialError ;;
                 range l' (finalErrs ++ Errors errs)
             end) errs [] ;;
        ret (inl (mkMultipleErrors statusCode finalErrs))
    | DB _ =>
        let errResp :=
          setReason
            (setCode (setStatusCode errResp http.StatusInternalServerError)
                     "Internal Server Error")
            "DB Error" in
        do shown <- err_Error err ;;
        do _ <- emit (Logger_Errorf "DB error occurred %v" shown) ;;
        do _ <- incrPrometheusCounter false errResp
                  (mkLabel "DB error" path method) ;;
        ret (inr errResp)
    | Raw statusCode _ =>
        ret (inl (mkMultipleErrors statusCode [err]))
    | _ =>
        let errResp :=
          setCode (setStatusCode errResp http.StatusInternalServerError)
                  "Internal Server Error" in
        do _ <- incrPrometheusCounter isPartialError errResp
                  (mkLabel "DB error" path method) ;;
        ret (inr errResp)
    end ;;
  match switch with
  | inl finalErr => ret finalErr
  | inr errResp =>
      do p <- addressOf errResp ;;
      ret (mkMultipleErrors (StatusCode errResp) [ResponsePtr p])
  end.

(** The [for ... range v.Errors] loop of the [MultipleErrors] case, over an
    arbitrary loop body [f]; [processErrors_Multiple] below shows it is the
    loop inside [processErrors]. *)
Definition range (f : error → M MultipleErrors)
    : list error → list error → M (list error) :=
  fix range (l : list error) (finalErrs : list error) : M (list error) :=
    match l with
    | [] => ret finalErrs
    | v :: l' =>
        do errs <- f v ;;
        range l' (finalErrs ++ Errors errs)
    end.

(** [type Handler func(c *Context) (interface{}, error)]: the handler runs
    in the same world and returns its payload and error. *)
Definition Handler : Type := M (data * option error).

(** [ServeHTTP] from the line after [data, err := h(c)];
    [routeTemplate] is what [route.GetPathTemplate()] returned and
    [r_Method] is [r.Method]. *)
Definition respondTo (data : data) (err : option error)
    (routeTemplate r_Method : string) : M unit :=
  let path := strings.TrimSuffix routeTemplate "/" in
  do errorResp <-
    match err with
    | None => ret err
    | Some EntityAlreadyExists => ret err
    | Some e =>
        let isPartialResponse :=
          match data with Nil => false | _ => true end in
        do m <- processErrors e path r_Method isPartialResponse ;;
        do msg <- err_Error e ;;
        do _ <- emit (WithErrorMessage msg) ;;
        ret (Some (asError m))
    end ;;
  match data with
  | types_Response res => emit (Respond (AddressOf res) errorResp)
  | template_Template _ | template_File _
  | types_ResponsePtr _ | types_RawWithOptions _ =>
      emit (Respond (Same data) errorResp)
  | types_Raw Data => emit (Respond (Same Data) errorResp)
  | _ => emit (Respond (NewResponse data) errorResp)
  end.

Definition ServeHTTP (h : Handler) (routeTemplate r_Method : string)
    : M unit :=
  do (data, err) <- h ;;
  respondTo data err routeTemplate r_Method.

(** The status and code columns of the taxonomy table of the
    specification (section 4.1), for the variants that are normalized
    from the error alone; an unrecognized error is the last row. *)
Definition taxonomy (err : error) : option (Z * string) :=
  match err with
  | InvalidParam _ => Some (400, "Invalid Parameter")
  | MissingParam _ => Some (400, "Missing Parameter")
  | EntityNotFound _ _ => Some (404, "Entity Not Found")
  | FileNotFound _ _ => Some (404, "File Not Found")
  | MethodMissing _ _ => Some (405, "Method not allowed")
  | DB _ => Some (500, "Internal Server Error")
  | EntityAlreadyExists | Unclassified _ =>
      Some (500, "Internal Server Error")
  | ResponsePtr _ | Multiple _ _ | Raw _ _ => None
  end.

(** The reason column: the constant for [DB], the error's own message
    otherwise. *)
Definition reasonShown (σ : gmap loc (Response any)) (err : error)
    : string :=
  match err with
  | DB _ => "DB Error"
  | _ => Error σ err
  end.

(** How often the fault counter was incremented in a list of calls. *)
Definition isIncrement (c : call) : bool :=
  match c with ErrorTypesStats_Inc _ => true | _ => false end.

Definition increments (cs : list call) : nat :=
  length (List.filter isIncrement cs).

(** *** Notions used to state the properties *)

Definition stamp (t : Time) : DateTime :=
  mkDateTime (UTC_Format_RFC3339 t) (Zone t).

(** The response made for a [DB] error at time [t]. *)
Definition dbResponse (t : Time) : Response any :=
  mkResponse 500 "Internal Server Error" "DB Error" "" None "" [] (stamp t).

(** The world after further calls [cs]. *)
Definition addCalls (w : World) (cs : list call) : World :=
  mkWorld (readings w) (store w) (calls w ++ cs).

(** Two readings of the clock: the one every call starts with and the one
    the [MultipleErrors] case takes. *)
Definition twoReadings (w : World) : World :=
  mkWorld (S (S (readings w))) (store w) (calls w).

(** The store only grows, and an object that existed before is changed
    only if a pointer to it is among [ls]. *)
Definition preserves (ls : list error) (w w' : World) : Prop :=
  dom (store w) ⊆ dom (store w') ∧
  ∀ p, p ∈ dom (store w) → ResponsePtr p ∉ ls →
       store w' !! p = store w !! p.

(** Every pointer in [out] is to an object made during the run. *)
Definition madeInRun (out : list error) (w w' : World) : Prop :=
  ∀ p, ResponsePtr p ∈ out → (p ∉ dom (store w)) ∧ (p ∈ dom (store w')).

(** A run on [err] returns one element under status [sc], a pointer to a
    new response whose status, code and reason are [sc], [code] and
    [reason]. *)
Definition yields (err : error) (path method : string) (ip : bool)
    (w : World) (sc : Z) (code reason : string) : Prop :=
  ∃ p r,
    (processErrors err path method ip w).1
      = mkMultipleErrors sc [ResponsePtr p] ∧
    store (processErrors err path method ip w).2 !! p = Some r ∧
    StatusCode r = sc ∧ Code r = code ∧ Reason r = reason.

(** The shape of an entry of the result: a [Raw] leaf is kept as it is,
    any other leaf becomes a pointer to a response. *)
Definition keeps (leaf out : error) : Prop :=
  match leaf with
  | Raw _ _ => out = leaf
  | _ => ∃ p, out = ResponsePtr p
  end.

(** Whether [processErrors] counts a leaf as a fault: a [DB] error always,
    a [*errors.Response] and an error of the catch-all case when the
    response is not partial, any other leaf never. *)
Definition counts (isPartialError : bool) (leaf : error) : bool :=
  match leaf with
  | DB _ => true
  | ResponsePtr _ | EntityAlreadyExists | Unclassified _ =>
      negb isPartialError
  | _ => false
  end.

Definition faults (isPartialError : bool) (err : error) : nat :=
  length (List.filter (counts isPartialError) (leaves err)).

(** A call that [processErrors] may make for a request on [reqPath] and
    [reqMethod]: an error-level log line, or an increment labelled with that
    path and method and one of the two label types of the code. *)
Definition logOrFault (reqPath reqMethod : string) (c : call) : Prop :=
  match c with
  | Logger_Errorf _ _ => True
  | ErrorTypesStats_Inc l =>
      path l = reqPath ∧ method l = reqMethod ∧
      (labelType l = "DB error" ∨ labelType l = "Unknown Error")
  | _ => False
  end.

Definition isRespond (c : call) : bool :=
  match c with Respond _ _ => true | _ => false end.

(** [r'] is [r] but for its timestamp, and is [r] when [r] had one. *)
Definition restamped (r r' : Response any) : Prop :=
  setDateTime r (dateTime r') = r' ∧
  (Value (dateTime r) ≠ "" → r' = r).

(** Every response of [w] is still there in [w'], with at most a new
    timestamp. *)
Definition keepsResponses (w w' : World) : Prop :=
  ∀ p r, store w !! p = Some r →
         ∃ r', store w' !! p = Some r' ∧ restamped r r'.

(** *** The leaves of a run, each with the world it is reached in *)

(** The loop of the [MultipleErrors] case again, now collecting: [reach v w]
    is what is collected inside the call on [v] started in [w], and
    [after v w] is the world that call leaves. *)
Definition visit (reach : error → World → list (error * World))
    (after : error → World → World)
    : list error → World → list (error * World) :=
  fix visit (l : list error) (w : World) : list (error * World) :=
    match l with
    | [] => []
    | v :: l' => reach v w ++ visit l' (after v w)
    end.

(** The calls of [processErrors] on errors that are not [MultipleErrors]
    made during the run on [err] started in [w], in the order they are
    made, each with the world it is started in. It follows the recursion of
    [processErrors]: a [MultipleErrors] reads the clock twice and then
    calls [processErrors] on its elements from left to right, each in the
    world the one before has left. *)
Fixpoint reached (err : error) (path method : string) (isPartialError : bool)
    (w : World) {struct err} : list (error * World) :=
  match err with
  | Multiple _ errs =>
      (fix visit (l : list error) (w : World) : list (error * World) :=
         match l with
         | [] => []
         | v :: l' =>
             reached v path method isPartialError w
             ++ visit l' (processErrors v path method isPartialError w).2
         end) errs (twoReadings w)
  | _ => [(err, w)]
  end.

(** For a leaf reached in [wi] during a run started in [w] that ends in
    [w']: the call on the leaf returns the one entry [out]; the responses
    of [w] are still there in [wi], restamped at most; what the call leaves
    in the store is still there in [w'], restamped at most, and unchanged
    where no pointer among [ls] points. *)
Definition linked (path method : string) (ip : bool) (w : World)
    (ls : list error) (w' : World) (leaf : error * World) (out : error)
    : Prop :=
  let one := processErrors leaf.1 path method ip leaf.2 in
  Errors one.1 = [out] ∧
  dom (store w) ⊆ dom (store leaf.2) ∧
  keepsResponses w leaf.2 ∧
  keepsResponses one.2 w' ∧
  preserves ls one.2 w'.

(** [out] is a pointer to the response that the call of [processErrors] on
    the leaf, in the world the run reaches it in, makes and returns under
    that response's status code; and the store [σ'] holds that response at
    that pointer. *)
Definition entryOf (path method : string) (ip : bool)
    (σ' : gmap loc (Response any)) (leaf : error * World) (out : error)
    : Prop :=
  let one := processErrors leaf.1 path method ip leaf.2 in
  ∃ p r,
    out = ResponsePtr p ∧
    one.1 = mkMultipleErrors (StatusCode r) [ResponsePtr p] ∧
    store one.2 !! p = Some r ∧
    σ' !! p = Some r.

(** What the store [σ'] holds at the end of a run started with the store
    [σ], for the entry [out] made of a leaf reached in the world [wi]: a
    [Raw] is the entry itself; for a [*errors.Response] the entry points to
    a response with the status code and reason that [*v] has in [wi], which
    are those of the object the caller passed in [σ]; for any other leaf it
    points to a response whose status code is not 0 and whose reason is
    "DB Error" for a [DB] and the leaf's own message in [wi] otherwise, so
    that it is empty only if that message is. *)
Definition soundEntry (σ σ' : gmap loc (Response any))
    (leaf : error * World) (out : error) : Prop :=
  match leaf.1 with
  | Raw _ _ => out = leaf.1
  | ResponsePtr v =>
      ∃ p r,
        out = ResponsePtr p ∧ σ' !! p = Some r ∧
        StatusCode r = StatusCode (store leaf.2 !!! v) ∧
        Reason r = Reason (store leaf.2 !!! v) ∧
        ∀ r0, σ !! v = Some r0 →
              StatusCode r = StatusCode r0 ∧ Reason r = Reason r0
  | _ =>
      ∃ p r,
        out = ResponsePtr p ∧ σ' !! p = Some r ∧
        StatusCode r ≠ 0 ∧
        Reason r = reasonShown (store leaf.2) leaf.1 ∧
        (Reason r = "" → Error (store leaf.2) leaf.1 = "")
  end.

End gofr.

Arguments data : clear implicits.
Arguments responded : clear implicits.
Arguments call : clear implicits.
Arguments World : clear implicits.
Arguments M : clear implicits.
Arguments Handler : clear implicits.

(** ** A concrete environment, to run the handler on inputs *)

Module sample.

(** Messages in the style the documentation of the errors package shows;
    a [*errors.Response] reports its [Reason], [DB] and [Raw] report the
    error they wrap, an unclassified error reports its tag. *)
Fixpoint Error (σ : gmap loc (Response string)) (e : error) : string :=
  match e with
  | InvalidParam _ => "Incorrect value for parameter"
  | MissingParam _ => "Parameter is required for this request"
  | EntityNotFound _ _ => "No entity found for Id"
  | FileNotFound _ _ => "File not found"
  | MethodMissing _ _ => "Method not defined yet"
  | ResponsePtr v => Reason (σ !!! v)
  | Multiple _ _ => "multiple errors"
  | DB (Some e') => Error σ e'
  | DB None => "DB Error"
  | Raw _ (Some e') => Error σ e'
  | Raw _ None => "Unknown Error"
  | EntityAlreadyExists => "entity already exists"
  | Unclassified tag => tag
  end.

Definition clock (n : nat) : Time :=
  mkTime (if Nat.even n then "2024-05-01T10:00:00Z"
          else "2024-05-01T10:00:01Z") "UTC".

Definition w0 : World string := mkWorld 0 ∅ [].

(** A response a handler built itself, without a timestamp, and a world
    that holds it at location 1. *)
Definition teapot : Response string :=
  mkResponse 418 "TEAPOT" "short and stout" "7" None "/tea" []
             (mkDateTime "" "").

Definition w1 : World string := mkWorld 0 {[1%positive := teapot]} [].

(** A world that holds [&errors.Response{}] at location 1. *)
Definition wz : World string := mkWorld 0 {[1%positive := zeroResponse]} [].

Definition nested : error :=
  Multiple 422
    [InvalidParam ["id"];
     Multiple 500 [DB (Some (Unclassified "row not found"));
                  ResponsePtr 1%positive];
     Unclassified "boom"].

Definition withRaw : error :=
  Multiple 400
    [InvalidParam ["id"];
     Multiple 409 [Raw 502 None; Unclassified "late"]].

(** Status, code and reason of every entry of a result; a [Raw] entry shows
    its status only. *)
Definition shown (run : MultipleErrors * World string)
    : list (Z * string * string) :=
  map (λ e, match e with
            | ResponsePtr p =>
                let r := store run.2 !!! p in
                (StatusCode r, Code r, Reason r)
            | Raw sc _ => (sc, "", "")
            | _ => (0, "", "")
            end)
      (Errors run.1).

End sample.

(** ** Package [mqtt]: the publisher *)

Module mqtt.

Record Config := mkConfig {
  Protocol : string;
  Hostname : string;
  Port : Z;
  Username : string;
  Password : string;
  ClientID : string;
  Topic : string;
  QoS : Z;
  Order : bool;
  ConnectionRetryDuration : Z
}.

Section adapter.
(** The broker client, the published values and the errors a token may
    carry are those of the MQTT client library. *)
Context {paho_Client value tokenError : Type}.

(** [token.Error()] once [token.Wait()] has returned, for the token that
    [Client.Publish(topic, qos, retained, payload)] gave. *)
Context (publishError :
           paho_Client → string → Z → bool → value → option tokenError).

(** [MQTT]; a nil [Client] is [None]. The logger is observed through the
    calls made on it; [config] is the object [New] was given. *)
Record MQTT := mkMQTT {
  Client : option paho_Client;
  config : Config
}.

Inductive error : Type :=
| errors_Error (msg : string)        (* [errors.Error(msg)] *)
| token_Error (e : tokenError).

Inductive call : Type :=
| Logger_Debug (msg : string)
| Client_Publish (c : paho_Client) (topic : string) (qos : Z)
                 (retained : bool) (payload : value)
| Token_Wait.

(** [func (m *MQTT) PublishEvent(_ string, value interface{},
    _ map[string]string) error], passing the calls made so far. *)
Definition PublishEvent (m : MQTT) (_ : string) (value0 : value)
    (_ : gmap string string) (cs : list call)
    : option error * list call :=
  match Client m with
  | None =>
      (Some (errors_Error "client not configured"),
       cs ++ [Logger_Debug "client not configured"])
  | Some client =>
      let token :=
        publishError client (Topic (config m)) (QoS (config m)) false
                     value0 in
      let cs :=
        cs ++ [Client_Publish client (Topic (config m)) (QoS (config m))
                              false value0;
               Token_Wait] in
      match token with
      | Some e =>
          (Some (token_Error e),
           cs ++ [Logger_Debug "Failed to publish to topic"])
      | None => (None, cs)
      end
  end.

(** [PublishEventWithOptions] *)
Definition PublishEventWithOptions (m : MQTT) (key : string)
    (value0 : value) (headers : gmap string string) (cs : list call)
    : option error * list call :=
  PublishEvent m key value0 headers cs.

Definition isPublish (c : call) : bool :=
  match c with Client_Publish _ _ _ _ _ => true | _ => false end.

(** *** The life cycle of the adapter: [New], [Ping], [HealthCheck], [IsSet],
    [Subscribe] *)

(** What is passed to the [%v] verbs of the logger. *)
Inductive arg : Type :=
| AString (s : string)
| AInt (n : Z)
| AError (e : tokenError)
| AHealthCheckFailed (Dependency Reason : string) (Err : option tokenError).

(** Calls on the logger, the broker client, the tokens it hands out, the
    subscription metrics of package [pubsub] and the channel of [Subscribe],
    in the order they are made. *)
Inductive event : Type :=
| Debug (msg : string)
| Debugf (format : string) (args : list arg)
| Errorf (format : string) (args : list arg)
| Connect (c : paho_Client)
| Wait
| ClientSubscribe (c : paho_Client) (topic : string) (qos : Z)
| SubscribeReceiveCount (topic consumerGroup : string)
| SubscribeFailureCount (topic consumerGroup : string)
| PublishSuccessCount (topic consumerGroup : string)
| ChannelReceive.

(** How a call ends: it returns, it panics on a nil interface, or it waits
    for ever on a channel; in each case with the events up to there. *)
Inductive outcome (A : Type) : Type :=
| Returns (a : A) (es : list event)
| Panics (es : list event)
| Blocks (es : list event).
Arguments Returns {A}.
Arguments Panics {A}.
Arguments Blocks {A}.

Definition eventsOf {A} (o : outcome A) : list event :=
  match o with Returns _ es | Panics es | Blocks es => es end.

(** The fields of the client library's [ClientOptions] that [New] sets.
    A callback is the events it causes when the library calls it. *)
Record ClientOptions := mkClientOptions {
  Servers : list string;
  o_ClientID : string;
  o_Username : string;
  o_Password : string;
  o_Order : bool;
  OnConnect : paho_Client → list event;
  OnConnectionLost : paho_Client → tokenError → list event;
  ConnectRetryInterval : Z
}.

(** The client library and the constants of packages [datastore] and [pkg]:
    [mqtt.NewClientOptions()], [mqtt.NewClient], the token of
    [client.Connect()] as the result of [token.Wait()] and the
    [token.Error()] read after it, the [Error()] of that token read without
    waiting, the token of [client.Subscribe], and the first message the
    library hands to the subscription handler, if one ever comes. *)
Context (NewClientOptions : ClientOptions).
Context (NewClient : ClientOptions → paho_Client).
Context (connectToken : paho_Client → bool * option tokenError).
Context (connectErrorUnwaited : paho_Client → option tokenError).
Context (subscribeToken :
           paho_Client → string → Z → bool * option tokenError).
Context (firstMessage : paho_Client → string → Z → option (string * string)).
Context (datastore_Mqtt pkg_StatusDown pkg_StatusUp : string).

(** [strconv.Itoa] *)
Definition Itoa (n : Z) : string := NilZero.string_of_int (Z.to_int n).

(** A product of two [int64], as the machine computes it. *)
Definition wrap64 (z : Z) : Z := (z + 2 ^ 63) mod 2 ^ 64 - 2 ^ 63.

Definition time_Second : Z := 1000000000.

(** The setters of the client library, and the assignments to its fields,
    that [New] uses. *)
Definition AddBroker (o : ClientOptions) (server : string) : ClientOptions :=
  mkClientOptions (Servers o ++ [server]) (o_ClientID o) (o_Username o)
    (o_Password o) (o_Order o) (OnConnect o) (OnConnectionLost o)
    (ConnectRetryInterval o).

Definition SetClientID (o : ClientOptions) (id : string) : ClientOptions :=
  mkClientOptions (Servers o) id (o_Username o) (o_Password o) (o_Order o)
    (OnConnect o) (OnConnectionLost o) (ConnectRetryInterval o).

Definition SetUsername (o : ClientOptions) (u : string) : ClientOptions :=
  mkClientOptions (Servers o) (o_ClientID o) u (o_Password o) (o_Order o)
    (OnConnect o) (OnConnectionLost o) (ConnectRetryInterval o).

Definition SetPassword (o : ClientOptions) (p : string) : ClientOptions :=
  mkClientOptions (Servers o) (o_ClientID o) (o_Username o) p (o_Order o)
    (OnConnect o) (OnConnectionLost o) (ConnectRetryInterval o).

Definition SetOrderMatters (o : ClientOptions) (order : bool)
    : ClientOptions :=
  mkClientOptions (Servers o) (o_ClientID o) (o_Username o) (o_Password o)
    order (OnConnect o) (OnConnectionLost o) (ConnectRetryInterval o).

Definition setOnConnect (o : ClientOptions)
    (f : paho_Client → list event) : ClientOptions :=
  mkClientOptions (Servers o) (o_ClientID o) (o_Username o) (o_Password o)
    (o_Order o) f (OnConnectionLost o) (ConnectRetryInterval o).

Definition setOnConnectionLost (o : ClientOptions)
    (f : paho_Client → tokenError → list event) : ClientOptions :=
  mkClientOptions (Servers o) (o_ClientID o) (o_Username o) (o_Password o)
    (o_Order o) (OnConnect o) f (ConnectRetryInterval o).

Definition setConnectRetryInterval (o : ClientOptions) (d : Z)
    : ClientOptions :=
  mkClientOptions (Servers o) (o_ClientID o) (o_Username o) (o_Password o)
    (o_Order o) (OnConnect o) (OnConnectionLost o) d.

(** Lines 39 to 63 of [New]: the options the client is made from. *)
Definition newOptions (config : Config) : ClientOptions :=
  let options := NewClientOptions in
  let options :=
    AddBroker options
      ("tcp://" +:+ Hostname config +:+ ":" +:+ Itoa (Port config)) in
  let options := SetClientID options (ClientID config) in
  let options :=
    if negb (String.eqb (Username config) "")
    then SetUsername options (Username config)
    else options in
  let options :=
    if negb (String.eqb (Password config) "")
    then SetPassword options (Password config)
    else options in
  let options := SetOrderMatters options (Order config) in
  let options := setOnConnect options (λ _, [Debug "Connected"]) in
  let options :=
    setOnConnectionLost options
      (λ _ err, [Errorf "Connection lost: %v" [AError err]]) in
  setConnectRetryInterval options
    (wrap64 (time_Second * ConnectionRetryDuration config)).

(** [func New(config *Config, logger log.Logger)
    (pubsub.PublisherSubscriber, error)] *)
Definition New (config : Config) (es : list event)
    : (MQTT * option tokenError) * list event :=
  let options := newOptions config in
  let client := NewClient options in
  let token := connectToken client in
  let es := es ++ [Connect client; Wait] in
  match token with
  | (true, Some e) =>
      ((mkMQTT None config, Some e),
       es ++ [Errorf
                "cannot connect to MQTT, HostName : %v, Port : %v, error : %v"
                [AString (Topic config); AInt (Port config); AError e]])
  | _ =>
      ((mkMQTT (Some client) config, None),
       es ++ [Debugf "connected to MQTT, HostName : %v, Port : %v"
                [AString (Topic config); AInt (Port config)]])
  end.

(** [pubsub.Message], as far as [Subscribe] fills it. *)
Record Message := mkMessage {
  MValue : string;
  MTopic : string
}.

(** [func (m *MQTT) Subscribe()], which returns a pointer to a
    [pubsub.Message], or nil, and an error. *)
Definition Subscribe (m : MQTT) (es : list event)
    : outcome (option Message * option tokenError) :=
  let es := es ++ [SubscribeReceiveCount (Topic (config m)) ""] in
  match Client m with
  | None => Panics es
  | Some client =>
      let token :=
        subscribeToken client (Topic (config m)) (QoS (config m)) in
      let es :=
        es ++ [ClientSubscribe client (Topic (config m)) (QoS (config m));
               Wait] in
      match token with
      | (true, Some e) =>
          Returns (None, Some e)
                  (es ++ [SubscribeFailureCount (Topic (config m)) ""])
      | _ =>
          let es := es ++ [PublishSuccessCount (Topic (config m)) ""] in
          match firstMessage client (Topic (config m)) (QoS (config m)) with
          | Some (payload, topic) =>
              Returns (Some (mkMessage payload topic), None)
                      (es ++ [ChannelReceive])
          | None => Blocks es
          end
      end
  end.

(** [SubscribeWithCommit] *)
Definition SubscribeWithCommit (m : MQTT) (es : list event)
    : outcome (option Message * option tokenError) :=
  Subscribe m es.

(** [func (m *MQTT) Ping() error] *)
Definition Ping (m : MQTT) (es : list event)
    : outcome (option tokenError) :=
  match Client m with
  | None => Panics es
  | Some client =>
      let err := connectErrorUnwaited client in
      let es := es ++ [Connect client] in
      match err with
      | Some e => Returns (Some e) es
      | None => Returns None es
      end
  end.

(** [types.Health], as far as [HealthCheck] fills it. *)
Record Health := mkHealth {
  Name : string;
  Status : string;
  Host : string;
  Database : string
}.

(** [func (m *MQTT) HealthCheck() types.Health]; a nil receiver is
    [None]. *)
Definition HealthCheck (m : option MQTT) (es : list event)
    : outcome Health :=
  match m with
  | None => Returns (mkHealth datastore_Mqtt pkg_StatusDown "" "") es
  | Some m =>
      let res :=
        mkHealth datastore_Mqtt pkg_StatusDown (Hostname (config m))
                 (Topic (config m)) in
      match Client m with
      | None =>
          Returns res
            (es ++ [Errorf "%v"
                      [AHealthCheckFailed datastore_Mqtt
                         "client is not initialized" None]])
      | Some _ =>
          match Ping m es with
          | Returns (Some err) es =>
              Returns res
                (es ++ [Errorf "%v"
                          [AHealthCheckFailed datastore_Mqtt "" (Some err)]])
          | Returns None es =>
              Returns (mkHealth (Name res) pkg_StatusUp (Host res)
                                (Database res)) es
          | Panics es => Panics es
          | Blocks es => Blocks es
          end
      end
  end.

(** [func (m *MQTT) IsSet() bool] *)
Definition IsSet (m : option MQTT) : bool :=
  match m with
  | None => false
  | Some m =>
      match Client m with
      | None => false
      | Some _ => true
      end
  end.

Definition isConnect (e : event) : bool :=
  match e with Connect _ => true | _ => false end.

Definition isErrorf (e : event) : bool :=
  match e with Errorf _ _ => true | _ => false end.

End adapter.

Arguments Returns {paho_Client tokenError A}.
Arguments Panics {paho_Client tokenError A}.
Arguments Blocks {paho_Client tokenError A}.

End mqtt.

(** ** A concrete broker, to run the adapter on inputs *)

Module mqtt_sample.
Import mqtt.

(** A client is named by the first broker of its options; the broker on
    host "down" refuses connections. *)
Definition NewClientOptions : @ClientOptions string string :=
  mkClientOptions [] "" "" "" false (λ _, []) (λ _ _, []) 0.

Definition NewClient (o : @ClientOptions string string) : string :=
  match Servers o with
  | broker :: _ => broker
  | [] => ""
  end.

Definition connectToken (c : string) : bool * option string :=
  if String.eqb c "tcp://down:1883"
  then (true, Some "connection refused")
  else (true, None).

Definition connectErrorUnwaited (c : string) : option string :=
  (connectToken c).2.

Definition subscribeToken (c topic : string) (qos : Z)
    : bool * option string :=
  (true, None).

Definition firstMessage (c topic : string) (qos : Z)
    : option (string * string) :=
  Some ("42", topic).

Definition publishError (c topic : string) (qos : Z) (retained : bool)
    (v : string) : option string :=
  None.

Definition cfgUp : Config :=
  mkConfig "tcp" "localhost" 1883 "" "" "gofr" "orders" 1 false 5.

Definition cfgDown : Config :=
  mkConfig "tcp" "down" 1883 "user" "secret" "gofr" "orders" 1 false 5.

End mqtt_sample.

(** ** Properties of the handler *)

(** Induction over [error] that also gives the hypothesis for every element
    of the list under [Multiple], which is where [processErrors] recurses.
    The errors wrapped by [DB] and [Raw] are never opened by the handler. *)
Lemma error_nested_ind (P : error → Prop) :
  (∀ Param, P (InvalidParam Param)) →
  (∀ Param, P (MissingParam Param)) →
  (∀ Entity ID, P (EntityNotFound Entity ID)) →
  (∀ FileName Path, P (FileNotFound FileName Path)) →
  (∀ Method URL, P (MethodMissing Method URL)) →
  (∀ v, P (ResponsePtr v)) →
  (∀ sc errs, Forall P errs → P (Multiple sc errs)) →
  (∀ Err, P (DB Err)) →
  (∀ sc Err, P (Raw sc Err)) →
  P EntityAlreadyExists →
  (∀ tag, P (Unclassified tag)) →
  ∀ e, P e.
Proof.
  intros HIP HMP HEN HFN HMM HR HM HDB HRaw HEA HU.
  fix IH 1. intros [p|p|en i|f pa|m u|v|sc errs|e|sc e| |t].
  7: { apply HM. induction errs as [|x xs IHxs]; constructor.
       - apply IH.
       - apply IHxs. }
  all: clear IH; auto.
Qed.

Section gofr_facts.
Context {any : Type}.
Context (clock : nat → Time).
Context (Error : gmap loc (Response any) → error → string).

Abbreviation processErrors := (processErrors clock Error).
Abbreviation World := (World any).
Abbreviation reasonShown := (reasonShown Error).
Abbreviation preserves := (@preserves any).
Abbreviation madeInRun := (@madeInRun any).
Abbreviation twoReadings := (@twoReadings any).
Abbreviation addCalls := (@addCalls any).
Abbreviation dbResponse := (@dbResponse any).
Abbreviation yields := (yields clock Error).

Lemma processErrors_Multiple sc errs path method ip w :
  processErrors (Multiple sc errs) path method ip w =
  let '(out, w') :=
    range (λ v, processErrors v path method ip) errs [] (twoReadings w) in
  (mkMultipleErrors sc out, w').
Proof.
  cbn. unfold bind, evaluateTimeAndTimeZone, bind, time_Now, err_Error, ret.
  cbn. unfold twoReadings.
  lazymatch goal with
  | |- (let '(_, _) := (let '(_, _) := ?loop errs [] ?w0 in _) in _) = _ =>
      change (loop errs [] w0)
        with (range (λ v, processErrors v path method ip) errs [] w0)
  end.
  destruct (range _ errs [] _) as [out w']. reflexivity.
Qed.

Lemma range_acc f l : ∀ acc (w : World),
  range f l acc w =
  let '(out, w') := range f l [] w in (acc ++ out, w').
Proof.
  induction l as [|v l IH]; intros acc w; cbn.
  - unfold ret. by rewrite app_nil_r.
  - unfold bind. destruct (f v w) as [m w1].
    rewrite (IH (acc ++ Errors m)), (IH ([] ++ Errors m)).
    destruct (range f l [] w1) as [out w2]. cbn. by rewrite app_assoc.
Qed.

Lemma range_cons f v l acc (w : World) :
  range f (v :: l) acc w =
  let '(m, w1) := f v w in
  let '(out, w2) := range f l [] w1 in
  (acc ++ Errors m ++ out, w2).
Proof.
  cbn. unfold bind. destruct (f v w) as [m w1].
  rewrite range_acc. destruct (range f l [] w1) as [out w2].
  by rewrite app_assoc.
Qed.

Lemma range_app f l1 l2 acc (w : World) :
  range f (l1 ++ l2) acc w =
  let '(o1, w1) := range f l1 [] w in
  let '(o2, w2) := range f l2 [] w1 in
  (acc ++ o1 ++ o2, w2).
Proof.
  revert acc w. induction l1 as [|v l1 IH]; intros acc w.
  - cbn. unfold ret. rewrite range_acc. by destruct (range f l2 [] w).
  - rewrite <- app_comm_cons, !range_cons.
    destruct (f v w) as [m w1]. rewrite IH.
    destruct (range f l1 [] w1) as [o1 w2].
    destruct (range f l2 [] w2) as [o2 w3]. cbn.
    by rewrite <- !app_assoc.
Qed.

(** *** The store across a run *)

Ltac run :=
  cbn;
  unfold bind, evaluateTimeAndTimeZone, incrPrometheusCounter, bind,
    time_Now, err_Error, emit, load, assignDateTime, addressOf, ret;
  cbn.

Ltac branches :=
  repeat match goal with
         | |- context [if ?b then _ else _] => destruct b eqn:?
         end;
  cbn.

Lemma fresh_ne (σ : gmap loc (Response any)) p :
  p ∈ dom σ → fresh (dom σ) ≠ p.
Proof. intros Hp Heq. rewrite <- Heq in Hp. by apply (is_fresh (dom σ)). Qed.

Lemma preserves_refl ls w : preserves ls w w.
Proof. split; [done | auto]. Qed.

Lemma preserves_trans ls1 ls2 w1 w2 w3 :
  preserves ls1 w1 w2 → preserves ls2 w2 w3 →
  preserves (ls1 ++ ls2) w1 w3.
Proof.
  intros [Hd1 Hs1] [Hd2 Hs2]. split; [set_solver |].
  intros p Hp Hn. rewrite not_elem_of_app in Hn. destruct Hn as [Hn1 Hn2].
  rewrite Hs2; [by apply Hs1 | set_solver | done].
Qed.

Lemma preserves_weaken ls ls' w w' :
  ls ⊆ ls' → preserves ls w w' → preserves ls' w w'.
Proof. intros Hsub [Hd Hs]. split; [done |]. intros p Hp Hn. apply Hs; set_solver. Qed.

Ltac solve_dom := cbn; rewrite ?dom_insert_L; set_solver.

Ltac solve_lookup :=
  cbn; let p := fresh "p" in let Hp := fresh "Hp" in let Hn := fresh "Hn" in
  intros p Hp Hn;
  repeat (rewrite lookup_insert_ne;
          [| first [ apply fresh_ne; rewrite ?dom_insert_L; set_solver
                   | intros ->; apply Hn; apply list_elem_of_singleton;
                     reflexivity ]]);
  reflexivity.

Ltac solve_made :=
  cbn; let p := fresh "p" in let Hin := fresh "Hin" in
  intros p Hin; apply list_elem_of_singleton in Hin; simplify_eq;
  (split;
   [ cbn; match goal with
     | |- fresh (dom ?σ) ∉ _ =>
         let Hf := fresh "Hf" in
         pose proof (is_fresh (dom σ)) as Hf;
         rewrite ?dom_insert_L in Hf |- *; set_solver
     end
   | cbn; rewrite dom_insert_L; set_solver ]).

(** A leaf: the store after the run of a single, non-composite error. *)
Lemma processErrors_store_leaf err path method ip w m w' :
  (∀ sc errs, err ≠ Multiple sc errs) →
  processErrors err path method ip w = (m, w') →
  preserves [err] w w' ∧ madeInRun (Errors m) w w'.
Proof.
  intros Hleaf.
  destruct err as [q|q|en i|f pa|mt u|v|sc errs|e|sc e| |t];
    try (by destruct (Hleaf sc errs)); run; branches;
    intros [= <- <-];
    (split; [split |]; [ solve_dom | solve_lookup | solve_made ]).
Qed.

Lemma madeInRun_app o1 o2 w w1 w2 :
  madeInRun o1 w w1 → madeInRun o2 w1 w2 →
  dom (store w) ⊆ dom (store w1) → dom (store w1) ⊆ dom (store w2) →
  madeInRun (o1 ++ o2) w w2.
Proof.
  intros H1 H2 Hd1 Hd2 p Hin. apply elem_of_app in Hin as [Hin|Hin].
  - destruct (H1 p Hin). split; [done | set_solver].
  - destruct (H2 p Hin). split; [set_solver | done].
Qed.

Lemma range_store path method ip l :
  Forall (λ v, ∀ w m w',
            processErrors v path method ip w = (m, w') →
            preserves (leaves v) w w' ∧ madeInRun (Errors m) w w') l →
  ∀ w out w',
    range (λ v, processErrors v path method ip) l [] w = (out, w') →
    preserves (flat_map leaves l) w w' ∧ madeInRun out w w'.
Proof.
  induction 1 as [|v l Hv _ IH]; intros w out w'.
  - cbn. intros [= <- <-]. split; [apply preserves_refl |].
    intros p Hp. by apply elem_of_nil in Hp.
  - rewrite range_cons.
    destruct (processErrors v path method ip w) as [m w1] eqn:E1.
    destruct (range _ l [] w1) as [o2 w2] eqn:E2.
    intros [= <- <-].
    destruct (Hv _ _ _ E1) as [Hp1 Hm1].
    destruct (IH _ _ _ E2) as [Hp2 Hm2].
    split.
    + cbn. by eapply preserves_trans.
    + cbn. eapply madeInRun_app; eauto; [apply Hp1 | apply Hp2].
Qed.

(** The store across any run: it grows; the objects that existed before
    are untouched, except the [*errors.Response] leaves; every pointer in
    the result is to an object made by the run. *)
Lemma processErrors_store err : ∀ path method ip w m w',
  processErrors err path method ip w = (m, w') →
  preserves (leaves err) w w' ∧ madeInRun (Errors m) w w'.
Proof.
  induction err as [q|q|en i|f pa|mt u|v|sc errs IH|e|sc e| |t]
    using error_nested_ind; intros path method ip w m w';
    try (apply processErrors_store_leaf; by intros).
  rewrite processErrors_Multiple.
  destruct (range _ errs [] _) as [out w2] eqn:E. intros [= <- <-].
  eapply (range_store path method ip) in E.
  - exact E.
  - eapply Forall_impl; [exact IH |]. cbn. intros v Hv w1 m1 w1'. apply Hv.
Qed.

(** *** The result list *)

Lemma processErrors_leaf_single err path method ip w :
  (∀ sc errs, err ≠ Multiple sc errs) →
  ∃ out, Errors (processErrors err path method ip w).1 = [out].
Proof.
  intros Hleaf.
  destruct err as [q|q|en i|f pa|mt u|v|sc errs|e|sc e| |t];
    try (by destruct (Hleaf sc errs)); run; branches; eauto.
Qed.

(** *** Leaves that are normalized from the error alone *)

Lemma processErrors_classified err sc code path method ip w :
  taxonomy err = Some (sc, code) →
  let p := fresh (dom (store w)) in
  let r := mkResponse sc code (reasonShown (store w) err) "" None "" []
                      (stamp (clock (readings w))) in
  ∃ cs,
    processErrors err path method ip w =
    (mkMultipleErrors sc [ResponsePtr p],
     mkWorld (S (readings w)) (<[p := r]> (store w)) (calls w ++ cs)).
Proof.
  destruct err as [q|q|en i|f pa|mt u|v|sc' errs|e|sc' e| |t]; cbn;
    intros [= <- <-]; run; branches;
    try (by exists []; rewrite app_nil_r);
    rewrite <- ?app_assoc; eexists; reflexivity.
Qed.

(** *** The claims *)

Lemma taxonomy_yields err sc code path method ip w :
  taxonomy err = Some (sc, code) →
  yields err path method ip w sc code (reasonShown (store w) err).
Proof.
  intros Ht.
  destruct (processErrors_classified err sc code path method ip w Ht)
    as [cs Hrun].
  unfold yields. rewrite Hrun. cbn. eexists _, _.
  split_and!; [reflexivity | apply lookup_insert_eq | reflexivity..].
Qed.

(** C7. The taxonomy mapping: InvalidParam and MissingParam give status 400
    with codes "Invalid Parameter" and "Missing Parameter"; EntityNotFound
    and FileNotFound give 404 with "Entity Not Found" and "File Not Found";
    MethodMissing gives 405 with "Method not allowed"; an unrecognized
    error gives 500 with "Internal Server Error"; in each case the reason
    is the error's own message, [err.Error()]. *)
Theorem C7_taxonomy_mapping path method ip (w : World) :
  (∀ Param, yields (InvalidParam Param) path method ip w
              400 "Invalid Parameter"
              (Error (store w) (InvalidParam Param))) ∧
  (∀ Param, yields (MissingParam Param) path method ip w
              400 "Missing Parameter"
              (Error (store w) (MissingParam Param))) ∧
  (∀ Entity ID, yields (EntityNotFound Entity ID) path method ip w
              404 "Entity Not Found"
              (Error (store w) (EntityNotFound Entity ID))) ∧
  (∀ FileName Path, yields (FileNotFound FileName Path) path method ip w
              404 "File Not Found"
              (Error (store w) (FileNotFound FileName Path))) ∧
  (∀ Method URL, yields (MethodMissing Method URL) path method ip w
              405 "Method not allowed"
              (Error (store w) (MethodMissing Method URL))) ∧
  (∀ tag, yields (Unclassified tag) path method ip w
              500 "Internal Server Error"
              (Error (store w) (Unclassified tag))).
Proof.
  split_and!; intros; by apply taxonomy_yields.
Qed.

(** C9. An error that is not a MultipleErrors gives a result list of
    exactly one element; so a result list of any other length can only
    come from a MultipleErrors. *)
Theorem C9_single_unless_multiple err path method ip (w : World) :
  ((∀ sc errs, err ≠ Multiple sc errs) →
   length (Errors (processErrors err path method ip w).1) = 1%nat) ∧
  (length (Errors (processErrors err path method ip w).1) ≠ 1%nat →
   ∃ sc errs, err = Multiple sc errs).
Proof.
  assert (Hone : (∀ sc errs, err ≠ Multiple sc errs) →
            length (Errors (processErrors err path method ip w).1) = 1%nat).
  { intros Hleaf.
    destruct (processErrors_leaf_single err path method ip w Hleaf)
      as [out ->]. reflexivity. }
  split; [exact Hone |].
  intros Hlen. destruct err as [q|q|en i|f pa|mt u|v|sc errs|e|sc e| |t].
  7: by exists sc, errs.
  all: exfalso; apply Hlen, Hone; intros; discriminate.
Qed.

(** The policy of [incrPrometheusCounter]: one error-level log line and
    one increment when the status is 500 or 0 and the error is not
    partial, nothing otherwise. *)
Lemma incrPrometheusCounter_fires r label (w : World) :
  StatusCode r = 500 ∨ StatusCode r = 0 →
  incrPrometheusCounter false r label w =
  (tt, addCalls w [Logger_Errorf "error occurred %v" (Reason r);
                   ErrorTypesStats_Inc label]).
Proof.
  intros Hsc. unfold incrPrometheusCounter, http.StatusInternalServerError.
  assert (bool_decide (StatusCode r = 500) || bool_decide (StatusCode r = 0)
          = true) as ->.
  { apply orb_true_iff. rewrite !bool_decide_eq_true. exact Hsc. }
  cbn. unfold bind, emit, addCalls. cbn. rewrite <- app_assoc.
  by destruct label.
Qed.

Lemma incrPrometheusCounter_silent ip r label (w : World) :
  ip = true ∨ (StatusCode r ≠ 500 ∧ StatusCode r ≠ 0) →
  incrPrometheusCounter ip r label w = (tt, w).
Proof.
  intros H. unfold incrPrometheusCounter, http.StatusInternalServerError.
  destruct H as [-> | [H5 H0]].
  - by rewrite andb_false_r.
  - rewrite !bool_decide_eq_false_2 by done. reflexivity.
Qed.

Lemma processErrors_DB e path method ip (w : World) :
  let p := fresh (dom (store w)) in
  processErrors (DB e) path method ip w =
  (mkMultipleErrors 500 [ResponsePtr p],
   mkWorld (S (readings w))
           (<[p := dbResponse (clock (readings w))]> (store w))
           (calls w ++
            [Logger_Errorf "DB error occurred %v" (Error (store w) (DB e));
             Logger_Errorf "error occurred %v" "DB Error";
             ErrorTypesStats_Inc (mkLabel "DB error" path method)])).
Proof.
  run. rewrite bool_decide_eq_true_2 by reflexivity. cbn.
  rewrite <- !app_assoc. reflexivity.
Qed.

(** C4. Two DatabaseError inputs, whatever they wrap, give client-visible
    responses that agree on everything but the timestamp: status 500, code
    "Internal Server Error", reason "DB Error", all other fields empty.
    The wrapped error's text goes only to the error log. *)
Theorem C4_db_redaction e1 e2 path method ip1 ip2 (w1 w2 : World) :
  let run1 := processErrors (DB e1) path method ip1 w1 in
  let run2 := processErrors (DB e2) path method ip2 w2 in
  ∃ p1 p2 r1 r2,
    run1.1 = mkMultipleErrors 500 [ResponsePtr p1] ∧
    run2.1 = mkMultipleErrors 500 [ResponsePtr p2] ∧
    store run1.2 !! p1 = Some r1 ∧
    store run2.2 !! p2 = Some r2 ∧
    r1 = dbResponse (clock (readings w1)) ∧
    r2 = dbResponse (clock (readings w2)) ∧
    setDateTime r1 (dateTime r2) = r2 ∧
    calls run1.2 =
      calls w1 ++
      [Logger_Errorf "DB error occurred %v" (Error (store w1) (DB e1));
       Logger_Errorf "error occurred %v" "DB Error";
       ErrorTypesStats_Inc (mkLabel "DB error" path method)].
Proof.
  cbn zeta.
  exists (fresh (dom (store w1))), (fresh (dom (store w2))),
         (dbResponse (clock (readings w1))),
         (dbResponse (clock (readings w2))).
  rewrite !processErrors_DB. cbn. rewrite !lookup_insert_eq.
  split_and!; reflexivity.
Qed.

Lemma processErrors_ResponsePtr v path method ip (w : World) :
  let r := store w !!! v in
  let σ1 := if bool_decide (Value (dateTime r) = "")
            then <[v := setDateTime r (stamp (clock (readings w)))]> (store w)
            else store w in
  let p := fresh (dom σ1) in
  ∃ cs,
    processErrors (ResponsePtr v) path method ip w =
    (mkMultipleErrors (StatusCode (σ1 !!! v)) [ResponsePtr p],
     mkWorld (S (readings w)) (<[p := σ1 !!! v]> σ1) (calls w ++ cs)).
Proof.
  run. branches; try (by exists []; rewrite app_nil_r);
    rewrite <- ?app_assoc; eexists; reflexivity.
Qed.

(** C6. A [*errors.Response] whose timestamp value is empty is given the
    reading of the clock taken at the start of the call, the RFC3339 UTC
    string and the local zone name, both non-empty when the clock's are;
    one whose timestamp value is not empty is passed through unchanged.
    In both cases status, code, reason, resource, detail, path and root
    causes are the caller's, the caller's object and the returned copy
    agree, and the result carries the caller's status code. *)
Theorem C6_preformed_timestamp v r path method ip (w : World) :
  store w !! v = Some r →
  UTC_Format_RFC3339 (clock (readings w)) ≠ "" →
  Zone (clock (readings w)) ≠ "" →
  let run := processErrors (ResponsePtr v) path method ip w in
  ∃ p r',
    run.1 = mkMultipleErrors (StatusCode r) [ResponsePtr p] ∧
    p ≠ v ∧
    store run.2 !! p = Some r' ∧
    store run.2 !! v = Some r' ∧
    (StatusCode r' = StatusCode r ∧ Code r' = Code r ∧
     Reason r' = Reason r ∧ ResourceID r' = ResourceID r ∧
     Detail r' = Detail r ∧ Path r' = Path r ∧
     RootCauses r' = RootCauses r) ∧
    (Value (dateTime r) = "" →
       Value (dateTime r') = UTC_Format_RFC3339 (clock (readings w)) ∧
       TimeZone (dateTime r') = Zone (clock (readings w)) ∧
       Value (dateTime r') ≠ "" ∧ TimeZone (dateTime r') ≠ "") ∧
    (Value (dateTime r) ≠ "" → r' = r).
Proof.
  intros Hv Hval Hzone. cbn zeta.
  destruct (processErrors_ResponsePtr v path method ip w) as [cs ->].
  rewrite (lookup_total_correct _ _ _ Hv). cbn.
  assert (Hdom : v ∈ dom (store w)) by (apply elem_of_dom; eauto).
  case_bool_decide as Hempty.
  - rewrite lookup_total_insert_eq.
    eexists _, (setDateTime r (stamp (clock (readings w)))).
    split_and!; try reflexivity.
    + apply fresh_ne. rewrite dom_insert_L. set_solver.
    + apply lookup_insert_eq.
    + rewrite lookup_insert_ne, lookup_insert_eq; [done |].
      apply fresh_ne. rewrite dom_insert_L. set_solver.
    + intros _. cbn. done.
    + intros Hne. by destruct Hne.
  - rewrite (lookup_total_correct _ _ _ Hv).
    eexists _, r. split_and!; try reflexivity.
    + by apply fresh_ne.
    + apply lookup_insert_eq.
    + rewrite lookup_insert_ne; [done | by apply fresh_ne].
    + intros Hval'. by destruct Hempty.
Qed.

(** Every run of [processErrors] reads the clock. *)
Lemma range_reads path method ip l :
  Forall (λ v, ∀ w : World,
            (readings w < readings (processErrors v path method ip w).2)%nat)
         l →
  ∀ acc (w : World),
    (readings w ≤
     readings (range (λ v, processErrors v path method ip) l acc w).2)%nat.
Proof.
  induction 1 as [|v l Hv _ IH]; intros acc w; cbn; [done |].
  unfold bind. specialize (Hv w).
  destruct (processErrors v path method ip w) as [m w1]. cbn in Hv.
  specialize (IH (acc ++ Errors m) w1). lia.
Qed.

Lemma processErrors_reads err : ∀ path method ip (w : World),
  (readings w < readings (processErrors err path method ip w).2)%nat.
Proof.
  induction err as [q|q|en i|f pa|mt u|v|sc errs IH|e|sc e| |t]
    using error_nested_ind; intros path method ip w.
  7: { rewrite processErrors_Multiple.
       pose proof (range_reads path method ip errs) as Hr.
       specialize (Hr ltac:(eapply Forall_impl; [exact IH | cbn; auto])
                      [] (twoReadings w)).
       destruct (range _ errs [] _) as [out w2]. cbn in *. lia. }
  all: run; branches; lia.
Qed.

(** C8. When the handler's error is nil or EntityAlreadyExists, the error
    reaches the response writer as it is: the only call made is [Respond]
    with that error; nothing is recorded on the request context, the store
    of responses is untouched, and the clock is not read, which every run
    of [processErrors] does. *)
Theorem C8_success_passthrough (h : Handler any) data err
    routeTemplate r_Method (w w1 : World) :
  h w = ((data, err), w1) →
  err = None ∨ err = Some EntityAlreadyExists →
  (∃ res, ServeHTTP clock Error h routeTemplate r_Method w =
          (tt, addCalls w1 [Respond res err])) ∧
  (∀ e path method ip (w0 : World),
     readings w0 ≠ readings (processErrors e path method ip w0).2).
Proof.
  intros Hh Herr. split.
  - unfold ServeHTTP, bind. rewrite Hh. unfold respondTo, bind, addCalls.
    destruct Herr as [-> | ->]; destruct data; cbn; eexists; reflexivity.
  - intros e path method ip w0.
    pose proof (processErrors_reads e path method ip w0). lia.
Qed.

Lemma processErrors_Unclassified tag path method ip (w : World) :
  let p := fresh (dom (store w)) in
  processErrors (Unclassified tag) path method ip w =
  (mkMultipleErrors 500 [ResponsePtr p],
   mkWorld (S (readings w))
     (<[p := mkResponse 500 "Internal Server Error"
               (Error (store w) (Unclassified tag)) "" None "" []
               (stamp (clock (readings w)))]> (store w))
     (calls w ++
      if ip then []
      else [Logger_Errorf "error occurred %v"
              (Error (store w) (Unclassified tag));
            ErrorTypesStats_Inc (mkLabel "DB error" path method)])).
Proof.
  run. rewrite bool_decide_eq_true_2 by reflexivity.
  destruct ip; cbn; [by rewrite app_nil_r |].
  rewrite <- !app_assoc. reflexivity.
Qed.

(** C2, as the code has it. For an unclassified error, which is normalized
    to status 500, the calls made while dispatching contain no increment of
    the fault counter when the payload is non-nil and exactly one when it
    is nil. For a DatabaseError they contain exactly one increment whether
    or not the payload is nil. *)
Theorem C2_fault_counter data routeTemplate r_Method (w : World) :
  (∀ tag, ∃ cs,
     calls (respondTo clock Error data (Some (Unclassified tag))
              routeTemplate r_Method w).2 = calls w ++ cs ∧
     increments cs = match data with Nil => 1%nat | _ => 0%nat end) ∧
  (∀ e, ∃ cs,
     calls (respondTo clock Error data (Some (DB e))
              routeTemplate r_Method w).2 = calls w ++ cs ∧
     increments cs = 1%nat).
Proof.
  split; intros x; unfold respondTo, bind.
  - destruct data; rewrite processErrors_Unclassified; cbn;
      rewrite <- ?app_assoc; eexists; (split; [reflexivity |]);
      reflexivity.
  - destruct data; rewrite processErrors_DB; cbn;
      rewrite <- ?app_assoc; eexists; (split; [reflexivity |]);
      reflexivity.
Qed.

(** *** Flattening *)

Lemma leaves_not_Multiple err :
  Forall (λ leaf, ∀ sc es, leaf ≠ Multiple sc es) (leaves err).
Proof.
  induction err as [q|q|en i|f pa|mt u|v|sc errs IH|e|sc e| |t]
    using error_nested_ind; cbn; try (by repeat constructor).
  induction IH as [|x xs Hx _ IHxs]; cbn; [constructor |].
  by apply Forall_app.
Qed.

Lemma leaf_cases leaf :
  (∀ sc es, leaf ≠ Multiple sc es) →
  (∃ v, leaf = ResponsePtr v) ∨ (∃ sc e, leaf = Raw sc e) ∨
  (∃ sc code, taxonomy leaf = Some (sc, code) ∧ sc ≠ 0).
Proof.
  intros Hleaf.
  destruct leaf as [q|q|en i|f pa|mt u|v|sc errs|e|sc e| |t]; cbn;
    try (by destruct (Hleaf sc errs)); eauto;
    right; right; eexists _, _; (split; [reflexivity | done]).
Qed.

Lemma Forall2_with {A B} (P R : A → B → Prop) (Q : A → Prop) l k :
  Forall2 P l k → Forall Q l →
  (∀ x y, Q x → P x y → R x y) → Forall2 R l k.
Proof.
  intros HP HQ Himp. induction HP as [|x y l k Hxy _ IH];
    constructor; inversion HQ; subst; auto.
Qed.

Lemma range_shape path method ip l :
  Forall (λ v, ∀ w : World,
            Forall2 keeps (leaves v)
                    (Errors (processErrors v path method ip w).1)) l →
  ∀ w : World,
    Forall2 keeps (flat_map leaves l)
      (range (λ v, processErrors v path method ip) l [] w).1.
Proof.
  induction 1 as [|v l Hv _ IH]; intros w.
  - cbn. constructor.
  - rewrite range_cons. specialize (Hv w).
    destruct (processErrors v path method ip w) as [m w1].
    specialize (IH w1).
    destruct (range _ l [] w1) as [o2 w2]. cbn in *.
    by apply Forall2_app.
Qed.

Lemma processErrors_shape err : ∀ path method ip (w : World),
  Forall2 keeps (leaves err) (Errors (processErrors err path method ip w).1).
Proof.
  induction err as [q|q|en i|f pa|mt u|v|sc errs IH|e|sc e| |t]
    using error_nested_ind; intros path method ip w.
  7: { rewrite processErrors_Multiple.
       pose proof (range_shape path method ip errs) as Hr.
       specialize (Hr ltac:(eapply Forall_impl; [exact IH | cbn; auto])
                      (twoReadings w)).
       by destruct (range _ errs [] _) as [out w2]. }
  all: run; branches; (constructor; [cbn; eauto | constructor]).
Qed.

Lemma processErrors_status_Multiple sc errs path method ip (w : World) :
  MStatusCode (processErrors (Multiple sc errs) path method ip w).1 = sc.
Proof.
  rewrite processErrors_Multiple. by destruct (range _ errs [] _).
Qed.

(** C1, as the code has it. A [Raw] error given to [processErrors] itself
    comes back as the only element, under its own status code, and nothing
    is stored, logged or counted. A [Raw] error among the (possibly nested)
    elements of a MultipleErrors is kept as it is at its place among the
    leaves, next to the entries of its siblings, under the status code of
    the outermost MultipleErrors. *)
Theorem C1_raw_kept_in_place path method ip (w : World) :
  (∀ sc e,
     processErrors (Raw sc e) path method ip w =
     (mkMultipleErrors sc [Raw sc e],
      mkWorld (S (readings w)) (store w) (calls w))) ∧
  (∀ sc errs,
     let m := (processErrors (Multiple sc errs) path method ip w).1 in
     MStatusCode m = sc ∧
     length (Errors m) = length (leaves (Multiple sc errs)) ∧
     ∀ k rs re,
       leaves (Multiple sc errs) !! k = Some (Raw rs re) →
       Errors m !! k = Some (Raw rs re)).
Proof.
  split; [reflexivity |]. intros sc errs m.
  pose proof (processErrors_shape (Multiple sc errs) path method ip w)
    as Hshape. fold m in Hshape.
  split_and!.
  - apply processErrors_status_Multiple.
  - symmetry. by eapply Forall2_length.
  - intros k rs re Hk.
    destruct (Forall2_lookup_l _ _ _ _ _ Hshape Hk) as (out & -> & Hkeep).
    cbn in Hkeep. by rewrite Hkeep.
Qed.

Lemma processErrors_leaf_response leaf path method ip (w : World) :
  (∀ sc es, leaf ≠ Multiple sc es) → (∀ sc e, leaf ≠ Raw sc e) →
  ∃ p r,
    (processErrors leaf path method ip w).1
      = mkMultipleErrors (StatusCode r) [ResponsePtr p] ∧
    store (processErrors leaf path method ip w).2 !! p = Some r.
Proof.
  intros Hm Hr.
  destruct (leaf_cases leaf Hm) as [[v ->] | [(sc & e & ->) | Ht]].
  - destruct (processErrors_ResponsePtr v path method ip w) as [cs ->].
    cbn. eexists _, _. split; [reflexivity | apply lookup_insert_eq].
  - by destruct (Hr sc e).
  - destruct Ht as (sc & code & Ht & _).
    destruct (processErrors_classified leaf sc code path method ip w Ht)
      as [cs ->].
    cbn. eexists _, _. split; [| apply lookup_insert_eq]. reflexivity.
Qed.

(** *** The calls made during a run *)

Abbreviation faults := (@faults).
Abbreviation logOrFault := (@logOrFault any).
Abbreviation restamped := (@restamped any).
Abbreviation keepsResponses := (@keepsResponses any).

Ltac decide_status :=
  unfold http.StatusInternalServerError;
  change (bool_decide (0 = 500)) with false;
  change (bool_decide (0 = 0)) with true;
  change (bool_decide (500 = 500)) with true;
  cbn.

Ltac calls_ok :=
  cbn;
  repeat match goal with
         | |- Forall _ [] => constructor
         | |- Forall _ (_ :: _) => constructor
         | |- _ => cbn; first [ exact I
                               | split_and!;
                                 [ reflexivity | reflexivity
                                 | first [by left | by right] ] ]
         end.

Lemma increments_app (a b : list (call any)) :
  increments (a ++ b) = (increments a + increments b)%nat.
Proof. unfold increments. by rewrite List.filter_app, length_app. Qed.

Lemma processErrors_calls_leaf err path method ip (w : World) :
  (∀ sc errs, err ≠ Multiple sc errs) →
  ∃ cs,
    calls (processErrors err path method ip w).2 = calls w ++ cs ∧
    Forall (logOrFault path method) cs ∧
    increments cs = if counts ip err then 1%nat else 0%nat.
Proof.
  intros Hleaf.
  destruct err as [q|q|en i|f pa|mt u|v|sc errs|e|sc e| |t];
    try (by destruct (Hleaf sc errs)); run; decide_status;
    try (exists []; rewrite app_nil_r; split_and!;
         [reflexivity | constructor | reflexivity]).
  - destruct (bool_decide _); destruct ip; cbn;
      first [ exists []; rewrite app_nil_r; split_and!;
              [reflexivity | constructor | reflexivity]
            | rewrite <- app_assoc; eexists; split_and!;
              [reflexivity | calls_ok | reflexivity] ].
  - rewrite <- !app_assoc; eexists; split_and!;
      [reflexivity | calls_ok | reflexivity].
  - destruct ip; cbn;
      first [ exists []; rewrite app_nil_r; split_and!;
              [reflexivity | constructor | reflexivity]
            | rewrite <- app_assoc; eexists; split_and!;
              [reflexivity | calls_ok | reflexivity] ].
  - destruct ip; cbn;
      first [ exists []; rewrite app_nil_r; split_and!;
              [reflexivity | constructor | reflexivity]
            | rewrite <- app_assoc; eexists; split_and!;
              [reflexivity | calls_ok | reflexivity] ].
Qed.

Lemma range_calls path method ip l :
  Forall (λ v, ∀ w : World, ∃ cs,
            calls (processErrors v path method ip w).2 = calls w ++ cs ∧
            Forall (logOrFault path method) cs ∧
            increments cs = faults ip v) l →
  ∀ w : World, ∃ cs,
    calls (range (λ v, processErrors v path method ip) l [] w).2
      = calls w ++ cs ∧
    Forall (logOrFault path method) cs ∧
    increments cs = length (List.filter (counts ip) (flat_map leaves l)).
Proof.
  induction 1 as [|v l Hv _ IH]; intros w.
  - exists []. cbn. rewrite app_nil_r. split_and!; [done | constructor | done].
  - rewrite range_cons. destruct (Hv w) as (cs1 & Hc1 & Hf1 & Hn1).
    destruct (processErrors v path method ip w) as [m w1]. cbn in Hc1.
    destruct (IH w1) as (cs2 & Hc2 & Hf2 & Hn2).
    destruct (range _ l [] w1) as [o2 w2]. cbn in Hc2 |- *.
    exists (cs1 ++ cs2). split_and!.
    + by rewrite Hc2, Hc1, app_assoc.
    + by apply Forall_app.
    + rewrite increments_app, List.filter_app, length_app, Hn1, Hn2.
      reflexivity.
Qed.

Lemma processErrors_calls err : ∀ path method ip (w : World), ∃ cs,
  calls (processErrors err path method ip w).2 = calls w ++ cs ∧
  Forall (logOrFault path method) cs ∧
  increments cs = faults ip err.
Proof.
  induction err as [q|q|en i|f pa|mt u|v|sc errs IH|e|sc e| |t]
    using error_nested_ind; intros path method ip w.
  7: { rewrite processErrors_Multiple.
       pose proof (range_calls path method ip errs) as Hr.
       specialize (Hr ltac:(eapply Forall_impl; [exact IH | cbn; auto])
                      (twoReadings w)).
       destruct (range _ errs [] _) as [out w2]. exact Hr. }
  all: match goal with
       | |- context [processErrors ?e _ _ _ _] =>
           destruct (processErrors_calls_leaf e path method ip w)
             as (cs & Hc & Hf & Hn); [by intros |];
           exists cs; split_and!; [done | done |];
           rewrite Hn; unfold faults; cbn;
           try destruct ip; reflexivity
       end.
Qed.

(** *** The stored responses across a run *)

Lemma restamped_refl (r : Response any) : restamped r r.
Proof. split; [by destruct r | done]. Qed.

Lemma restamped_trans (r1 r2 r3 : Response any) :
  restamped r1 r2 → restamped r2 r3 → restamped r1 r3.
Proof.
  intros [H12 K12] [H23 K23]. split.
  - rewrite <- H23, <- H12. reflexivity.
  - intros Hv. rewrite (K12 Hv) in *. by apply K23.
Qed.

Lemma keepsResponses_refl w : keepsResponses w w.
Proof. intros p r Hp. exists r. split; [done | apply restamped_refl]. Qed.

Lemma keepsResponses_trans w1 w2 w3 :
  keepsResponses w1 w2 → keepsResponses w2 w3 → keepsResponses w1 w3.
Proof.
  intros H12 H23 p r Hp. destruct (H12 p r Hp) as (r2 & Hp2 & Hr2).
  destruct (H23 p r2 Hp2) as (r3 & Hp3 & Hr3).
  exists r3. split; [done | by eapply restamped_trans].
Qed.

Lemma keepsResponses_alloc (w : World) n r cs :
  keepsResponses w
    (mkWorld n (<[fresh (dom (store w)) := r]> (store w)) cs).
Proof.
  intros p r0 Hp. exists r0. split; [| apply restamped_refl]. cbn.
  rewrite lookup_insert_ne; [done |].
  apply fresh_ne, elem_of_dom. eauto.
Qed.

Lemma processErrors_keeps_leaf err path method ip (w : World) :
  (∀ sc errs, err ≠ Multiple sc errs) →
  keepsResponses w (processErrors err path method ip w).2.
Proof.
  intros Hleaf.
  destruct (leaf_cases err Hleaf) as [[v ->] | [(sc & e & ->) | Ht]].
  - destruct (processErrors_ResponsePtr v path method ip w) as [cs ->].
    cbn. intros p r Hp.
    case_bool_decide as Hempty.
    + destruct (decide (p = v)) as [-> | Hne].
      * rewrite (lookup_total_correct _ _ _ Hp) in *.
        eexists. split.
        -- cbn. rewrite lookup_insert_ne, lookup_insert_eq; [reflexivity |].
           apply fresh_ne. rewrite dom_insert_L. set_solver.
        -- split; [reflexivity | by intros Hne].
      * exists r. split; [| apply restamped_refl]. cbn.
        rewrite !lookup_insert_ne; [done | done |].
        apply fresh_ne. rewrite dom_insert_L.
        apply elem_of_union_r, elem_of_dom. eauto.
    + exists r. split; [| apply restamped_refl]. cbn.
      rewrite lookup_insert_ne; [done |].
      apply fresh_ne, elem_of_dom. eauto.
  - cbn. intros p r Hp. exists r. split; [done | apply restamped_refl].
  - destruct Ht as (sc & code & Ht & _).
    destruct (processErrors_classified err sc code path method ip w Ht)
      as [cs ->].
    apply keepsResponses_alloc.
Qed.

Lemma range_keeps path method ip l :
  Forall (λ v, ∀ w : World,
            keepsResponses w (processErrors v path method ip w).2) l →
  ∀ w : World,
    keepsResponses w
      (range (λ v, processErrors v path method ip) l [] w).2.
Proof.
  induction 1 as [|v l Hv _ IH]; intros w.
  - apply keepsResponses_refl.
  - rewrite range_cons. specialize (Hv w).
    destruct (processErrors v path method ip w) as [m w1].
    specialize (IH w1). destruct (range _ l [] w1) as [o2 w2].
    by eapply keepsResponses_trans.
Qed.

Lemma processErrors_keeps err : ∀ path method ip (w : World),
  keepsResponses w (processErrors err path method ip w).2.
Proof.
  induction err as [q|q|en i|f pa|mt u|v|sc errs IH|e|sc e| |t]
    using error_nested_ind; intros path method ip w;
    try (apply processErrors_keeps_leaf; by intros).
  rewrite processErrors_Multiple.
  pose proof (range_keeps path method ip errs) as Hr.
  specialize (Hr ltac:(eapply Forall_impl; [exact IH | cbn; auto])
                 (twoReadings w)).
  by destruct (range _ errs [] _) as [out w2].
Qed.

(** *** The result, entry by entry *)

Abbreviation reached := (reached clock Error).
Abbreviation linked := (linked clock Error).
Abbreviation entryOf := (entryOf clock Error).
Abbreviation soundEntry := (soundEntry Error).

Lemma restamped_same (r r' : Response any) :
  restamped r r' → StatusCode r' = StatusCode r ∧ Reason r' = Reason r.
Proof. intros [<- _]. by split. Qed.

Lemma reached_Multiple sc errs path method ip (w : World) :
  reached (Multiple sc errs) path method ip w =
  visit (λ v, reached v path method ip)
        (λ v w, (processErrors v path method ip w).2) errs (twoReadings w).
Proof. reflexivity. Qed.

Lemma visit_leaves path method ip l :
  Forall (λ v, ∀ w : World,
            map fst (reached v path method ip w) = leaves v) l →
  ∀ w : World,
    map fst (visit (λ v, reached v path method ip)
                   (λ v w, (processErrors v path method ip w).2) l w)
    = flat_map leaves l.
Proof.
  induction 1 as [|v l Hv _ IH]; intros w; cbn; [done |].
  by rewrite map_app, Hv, IH.
Qed.

(** The leaves reached are the leaves of the input, in their order. *)
Lemma reached_leaves err : ∀ path method ip (w : World),
  map fst (reached err path method ip w) = leaves err.
Proof.
  induction err as [q|q|en i|f pa|mt u|v|sc errs IH|e|sc e| |t]
    using error_nested_ind; intros path method ip w; try reflexivity.
  rewrite reached_Multiple. cbn [leaves].
  apply visit_leaves. eapply Forall_impl; [exact IH | cbn; auto].
Qed.

Lemma linked_later path method ip (w0 w1 w2 : World) ls1 ls2 lw out :
  linked path method ip w0 ls1 w1 lw out →
  keepsResponses w1 w2 → preserves ls2 w1 w2 →
  linked path method ip w0 (ls1 ++ ls2) w2 lw out.
Proof.
  intros (Hout & Hdom & Hk0 & Hk & Hp) Hk2 Hp2.
  split_and!; [done | done | done | |].
  - by eapply keepsResponses_trans.
  - by eapply preserves_trans.
Qed.

Lemma linked_from path method ip (w0 w : World) ls ls' w' lw out :
  linked path method ip w ls w' lw out →
  dom (store w0) ⊆ dom (store w) → keepsResponses w0 w → ls ⊆ ls' →
  linked path method ip w0 ls' w' lw out.
Proof.
  intros (Hout & Hdom & Hk0 & Hk & Hp) Hd Hk1 Hsub.
  split_and!; [done | | | done |].
  - set_solver.
  - by eapply keepsResponses_trans.
  - by eapply preserves_weaken.
Qed.

Lemma visit_linked path method ip l :
  Forall (λ v, ∀ w : World,
            Forall2 (linked path method ip w (leaves v)
                       (processErrors v path method ip w).2)
                    (reached v path method ip w)
                    (Errors (processErrors v path method ip w).1)) l →
  ∀ w : World,
    Forall2 (linked path method ip w (flat_map leaves l)
               (range (λ v, processErrors v path method ip) l [] w).2)
            (visit (λ v, reached v path method ip)
                   (λ v w, (processErrors v path method ip w).2) l w)
            (range (λ v, processErrors v path method ip) l [] w).1.
Proof.
  induction 1 as [|v l Hv _ IH]; intros w.
  - cbn. constructor.
  - rewrite range_cons. cbn [visit flat_map].
    specialize (Hv w).
    pose proof (processErrors_keeps v path method ip w) as Hk1.
    destruct (processErrors v path method ip w) as [m w1] eqn:E1.
    destruct (processErrors_store _ _ _ _ _ _ _ E1) as [[Hd1 _] _].
    specialize (IH w1).
    pose proof (range_keeps path method ip l
                  ltac:(apply Forall_forall; intros; apply processErrors_keeps)
                  w1) as Hk2.
    destruct (range _ l [] w1) as [o2 w2] eqn:E2.
    pose proof E2 as E2'.
    apply (range_store path method ip) in E2' as [Hp2 _].
    2: { apply Forall_forall. intros x _ ? ? ?. apply processErrors_store. }
    cbn [fst snd] in *. rewrite app_nil_l. apply Forall2_app.
    + eapply Forall2_impl; [exact Hv |]. intros lw out Hl.
      by eapply linked_later.
    + eapply Forall2_impl; [exact IH |]. intros lw out Hl.
      eapply linked_from; [exact Hl | exact Hd1 | exact Hk1 |].
      intros x Hx. apply elem_of_app. by right.
Qed.

Lemma processErrors_linked err : ∀ path method ip (w : World),
  Forall2 (linked path method ip w (leaves err)
             (processErrors err path method ip w).2)
          (reached err path method ip w)
          (Errors (processErrors err path method ip w).1).
Proof.
  induction err as [q|q|en i|f pa|mt u|v|sc errs IH|e|sc e| |t]
    using error_nested_ind; intros path method ip w.
  7: { rewrite reached_Multiple, processErrors_Multiple.
       pose proof (visit_linked path method ip errs
                     ltac:(eapply Forall_impl; [exact IH | cbn; auto])
                     (twoReadings w)) as Hv.
       destruct (range _ errs [] _) as [out w2]. cbn [fst snd] in *.
       eapply Forall2_impl; [exact Hv |]. intros lw o Hl.
       eapply linked_from;
         [exact Hl | done | | done].
       intros p r Hp. exists r. split; [exact Hp | apply restamped_refl]. }
  all: match goal with
       | |- context [Errors (processErrors ?e _ _ _ _).1] =>
           destruct (processErrors_leaf_single e path method ip w)
             as [out Hout]; [by intros |];
           rewrite Hout; cbn [reached]; constructor; [| constructor];
           split_and!;
           [ exact Hout | done | apply keepsResponses_refl
           | apply keepsResponses_refl | apply preserves_refl ]
       end.
Qed.

Lemma reached_are_leaves err path method ip (w : World) :
  Forall (λ lw, lw.1 ∈ leaves err ∧ ∀ sc es, lw.1 ≠ Multiple sc es)
         (reached err path method ip w).
Proof.
  pose proof (reached_leaves err path method ip w) as Hl.
  pose proof (leaves_not_Multiple err) as Hnm.
  rewrite Forall_forall in Hnm.
  apply Forall_forall. intros lw Hin.
  assert (lw.1 ∈ leaves err) as Hleaf.
  { rewrite <- Hl. apply list_elem_of_fmap. by exists lw. }
  split; [done | by apply Hnm].
Qed.

(** C3. A MultipleErrors whose leaves, at any depth, are not Raw comes back
    flat: the status code is the outermost one; there is one entry per
    leaf; the [k]-th entry is a pointer to the response that the call of
    [processErrors] on the [k]-th leaf makes, in the world in which the run
    reaches that leaf, and the final store holds that response; no entry is
    a MultipleErrors. *)
Theorem C3_flattening sc errs path method ip (w : World) :
  (∀ rs re, Raw rs re ∉ leaves (Multiple sc errs)) →
  (∀ p, ResponsePtr p ∈ leaves (Multiple sc errs) → p ∈ dom (store w)) →
  let run := processErrors (Multiple sc errs) path method ip w in
  let visited := reached (Multiple sc errs) path method ip w in
  MStatusCode run.1 = sc ∧
  length (Errors run.1) = length (leaves (Multiple sc errs)) ∧
  map fst visited = leaves (Multiple sc errs) ∧
  Forall2 (entryOf path method ip (store run.2)) visited (Errors run.1) ∧
  Forall (λ out, ∀ sc' es, out ≠ Multiple sc' es) (Errors run.1).
Proof.
  intros Hraw Hwf run visited.
  pose proof (processErrors_linked (Multiple sc errs) path method ip w)
    as Hl. fold run visited in Hl.
  assert (He : Forall2 (entryOf path method ip (store run.2))
                 visited (Errors run.1)).
  { eapply Forall2_with;
      [exact Hl | apply reached_are_leaves |].
    intros [leaf wi] out [Hin Hnm] (Hout & Hdom & _ & _ & Hp). cbn in *.
    assert (Hnr : ∀ rs re, leaf ≠ Raw rs re)
      by (intros rs re ->; by apply (Hraw rs re)).
    destruct (processErrors_leaf_response leaf path method ip wi Hnm Hnr)
      as (p & r & Hres & Hst).
    destruct (processErrors leaf path method ip wi) as [m1 w1] eqn:E1.
    cbn in *. subst m1. cbn in Hout. injection Hout as <-.
    destruct (processErrors_store _ _ _ _ _ _ _ E1) as [_ Hmade].
    destruct (Hmade p ltac:(apply list_elem_of_here)) as [Hnew _].
    unfold entryOf. cbn [fst snd]. rewrite ?E1. cbn [fst snd].
    exists p, r.
    split_and!; [done | done | done |].
    destruct Hp as [_ Hsame]. rewrite Hsame; [done | |].
    - apply elem_of_dom. eauto.
    - intros Hleafp. apply Hnew, Hdom, Hwf, Hleafp. }
  split_and!.
  - apply processErrors_status_Multiple.
  - rewrite <- (reached_leaves (Multiple sc errs) path method ip w).
    rewrite length_map. symmetry. by eapply Forall2_length.
  - apply reached_leaves.
  - exact He.
  - eapply Forall2_Forall_r; [exact He |].
    apply Forall_forall. intros lw _ out (p & r & -> & _) sc' es.
    discriminate.
Qed.

(** C5, as the code has it. Entry by entry, in the order of the leaves: a
    response made of a leaf that is neither a [*errors.Response] nor a Raw
    has a status code other than 0, and its reason is "DB Error" for a DB
    error and the leaf's own message otherwise, so it is empty only if
    that message is; a response made of a [*errors.Response] has the status
    code and the reason that the caller's object has when the run
    reaches it, which are those it had when the run began; a Raw is the
    entry itself. *)
Theorem C5_entries_status_and_reason err path method ip (w : World) :
  let run := processErrors err path method ip w in
  let visited := reached err path method ip w in
  map fst visited = leaves err ∧
  Forall2 (soundEntry (store w) (store run.2)) visited (Errors run.1).
Proof.
  intros run visited. split; [apply reached_leaves |].
  pose proof (processErrors_linked err path method ip w) as Hl.
  fold run visited in Hl.
  eapply Forall2_with; [exact Hl | apply reached_are_leaves |].
  intros [leaf wi] out [_ Hnm] (Hout & _ & Hk0 & Hk & _). cbn in *.
  unfold soundEntry. cbn [fst snd].
  assert (Hcl : ∀ sc code, taxonomy leaf = Some (sc, code) → sc ≠ 0 →
            ∃ p r, out = ResponsePtr p ∧ store run.2 !! p = Some r ∧
                   StatusCode r ≠ 0 ∧
                   Reason r = reasonShown (store wi) leaf ∧
                   (Reason r = "" → Error (store wi) leaf = "")).
  { intros sc0 code Ht Hsc.
    destruct (processErrors_classified leaf sc0 code path method ip wi Ht)
      as [cs Hrun].
    rewrite Hrun in Hout, Hk. cbn in Hout, Hk. injection Hout as <-.
    destruct (Hk _ _ (lookup_insert_eq _ _ _)) as (r' & Hr' & Hre).
    apply restamped_same in Hre as [Hs Hr]. cbn in Hs, Hr.
    exists (fresh (dom (store wi))), r'.
    split_and!; [done | done | by rewrite Hs | done |].
    rewrite Hr. destruct leaf; cbn; try done. }
  destruct leaf as [q|q|en i|f pa|mt u|v|sc0 es|e|sc0 e| |t];
    try (eapply Hcl; [reflexivity | done]).
  - destruct (processErrors_ResponsePtr v path method ip wi) as [cs Hrun].
    rewrite Hrun in Hout, Hk. cbn in Hout, Hk. injection Hout as <-.
    destruct (Hk _ _ (lookup_insert_eq _ _ _)) as (r' & Hr' & Hre).
    apply restamped_same in Hre as [Hs Hr].
    assert (Hs' : StatusCode r' = StatusCode (store wi !!! v)).
    { rewrite Hs. case_bool_decide; [| done].
      by rewrite lookup_total_insert_eq. }
    assert (Hr'' : Reason r' = Reason (store wi !!! v)).
    { rewrite Hr. case_bool_decide; [| done].
      by rewrite lookup_total_insert_eq. }
    eexists _, r'.
    split_and!; [reflexivity | exact Hr' | exact Hs' | exact Hr'' |].
    intros r0 Hr0. destruct (Hk0 _ _ Hr0) as (r1 & Hr1 & Hre1).
    apply restamped_same in Hre1 as [Hs1 Hrr1].
    rewrite Hs', Hr'', (lookup_total_correct _ _ _ Hr1). by split.
  - by destruct (Hnm sc0 es).
  - cbn in Hout. by injection Hout as <-.
Qed.

(** *** The dispatcher *)

Lemma respondTo_calls data err routeTemplate r_Method (w : World) :
  let path := strings.TrimSuffix routeTemplate "/" in
  let isPartial := match data with Nil => false | _ => true end in
  ∃ cs res err',
    calls (respondTo clock Error data err routeTemplate r_Method w).2
      = calls w ++ cs ++ [Respond res err'] ∧
    Forall (λ c, logOrFault path r_Method c ∨ ∃ msg, c = WithErrorMessage msg)
           cs ∧
    increments cs = match err with
                    | None | Some EntityAlreadyExists => 0%nat
                    | Some e => faults isPartial e
                    end ∧
    (err' = None ↔ err = None).
Proof.
  intros path isPartial. unfold respondTo, bind.
  fold path. fold isPartial.
  destruct err as [e|].
  2: { exists [], (match data with
                   | types_Response res => AddressOf res
                   | types_Raw d => Same d
                   | Nil | OtherData _ => NewResponse data
                   | _ => Same data
                   end), None.
       split_and!; [| constructor | reflexivity | done].
       by destruct data. }
  assert (Hrun : e ≠ EntityAlreadyExists →
    ∃ cs res err',
      calls ((let '(a, w') :=
                let '(a, w') := processErrors e path r_Method isPartial w in
                let '(a0, w'0) := err_Error Error e w' in
                let '(_, w'1) := emit (WithErrorMessage a0) w'0 in
                ret (Some (asError a)) w'1 in
              match data with
              | types_Response res => emit (Respond (AddressOf res) a)
              | types_Raw Data => emit (Respond (Same Data) a)
              | Nil | OtherData _ => emit (Respond (NewResponse data) a)
              | _ => emit (Respond (Same data) a)
              end w')).2 = calls w ++ cs ++ [Respond res err'] ∧
      Forall (λ c, logOrFault path r_Method c ∨ ∃ msg, c = WithErrorMessage msg)
             cs ∧
      increments cs = faults isPartial e ∧ (err' = None ↔ Some e = None)).
  { intros _.
    destruct (processErrors_calls e path r_Method isPartial w)
      as (cs & Hc & Hf & Hn).
    destruct (processErrors e path r_Method isPartial w) as [m w1].
    cbn in Hc. unfold err_Error, emit, ret. cbn.
    exists (cs ++ [WithErrorMessage (Error (store w1) e)]),
           (match data with
            | types_Response res => AddressOf res
            | types_Raw d => Same d
            | Nil | OtherData _ => NewResponse data
            | _ => Same data
            end), (Some (asError m)).
    split_and!.
    - destruct data; cbn; rewrite Hc, <- !app_assoc; reflexivity.
    - apply Forall_app. split.
      + eapply Forall_impl; [exact Hf | cbn; auto].
      + constructor; [right; eauto | constructor].
    - rewrite increments_app, Hn. cbn. lia.
    - split; discriminate. }
  destruct e; try (apply Hrun; discriminate).
  exists [], (match data with
              | types_Response res => AddressOf res
              | types_Raw d => Same d
              | Nil | OtherData _ => NewResponse data
              | _ => Same data
              end), (Some EntityAlreadyExists).
  split_and!; [| constructor | reflexivity | split; discriminate].
  by destruct data.
Qed.

(** *** Further properties of the handler *)

(** X1. Whatever the nesting, a run of [processErrors] keeps the calls made
    before it and adds as many increments of the fault counter as the input
    has counted leaves: every [DB] leaf, and every [*errors.Response] or
    catch-all leaf when the response is not partial. *)
Theorem X1_fault_count err path method ip (w : World) :
  ∃ cs,
    calls (processErrors err path method ip w).2 = calls w ++ cs ∧
    increments cs = faults ip err.
Proof.
  destruct (processErrors_calls err path method ip w) as (cs & Hc & _ & Hn).
  by exists cs.
Qed.

(** X2. The only calls [processErrors] makes are error-level log lines and
    increments of the fault counter; every increment is labelled with the
    path and method it was given and with type "DB error" or
    "Unknown Error". It never responds and never touches the request
    context. *)
Theorem X2_only_logs_and_labelled_increments err path method ip (w : World) :
  ∃ cs,
    calls (processErrors err path method ip w).2 = calls w ++ cs ∧
    Forall (logOrFault path method) cs.
Proof.
  destruct (processErrors_calls err path method ip w) as (cs & Hc & Hf & _).
  by exists cs.
Qed.

(** X3. The dispatcher responds exactly once, as its last call, whatever
    the payload and the error; the writer is handed no error exactly when
    the handler returned none. *)
Theorem X3_responds_once_and_last data err routeTemplate r_Method (w : World) :
  ∃ cs res err',
    calls (respondTo clock Error data err routeTemplate r_Method w).2
      = calls w ++ cs ++ [Respond res err'] ∧
    List.filter isRespond cs = [] ∧
    (err' = None ↔ err = None).
Proof.
  destruct (respondTo_calls data err routeTemplate r_Method w)
    as (cs & res & err' & Hc & Hf & _ & He).
  exists cs, res, err'. split_and!; [done | | done].
  clear Hc. induction Hf as [|c cs Hc _ IH]; [reflexivity |].
  cbn. rewrite IH. destruct c; cbn in *; try reflexivity.
  destruct Hc as [[] | [msg Hmsg]]. discriminate.
Qed.

(** X4. For a handler error other than EntityAlreadyExists the dispatcher
    counts the faults of that error with "partial" meaning a non-nil
    payload, and labels every increment with the route template without
    its trailing slash and with the request method; for no error or
    EntityAlreadyExists it counts nothing. *)
Theorem X4_dispatch_counts_with_trimmed_path data err routeTemplate r_Method
    (w : World) :
  ∃ cs res err',
    calls (respondTo clock Error data err routeTemplate r_Method w).2
      = calls w ++ cs ++ [Respond res err'] ∧
    Forall (λ c, ∀ l, c = ErrorTypesStats_Inc l →
                      path l = strings.TrimSuffix routeTemplate "/" ∧
                      method l = r_Method) cs ∧
    increments cs =
      match err with
      | None | Some EntityAlreadyExists => 0%nat
      | Some e => faults (match data with Nil => false | _ => true end) e
      end.
Proof.
  destruct (respondTo_calls data err routeTemplate r_Method w)
    as (cs & res & err' & Hc & Hf & Hn & _).
  exists cs, res, err'. split_and!; [done | | done].
  eapply Forall_impl; [exact Hf |]. cbn.
  intros c Hlf l Heq. subst c.
  destruct Hlf as [Hl | [msg Hmsg]]; [| discriminate].
  cbn in Hl. by destruct Hl as (? & ? & _).
Qed.

(** X5. A run of [processErrors] leaves every stored response that no leaf
    of the input points to exactly as it was, and every pointer in its
    result is to an object that did not exist before the run. *)
Theorem X5_untouched_and_fresh err path method ip (w : World) :
  let run := processErrors err path method ip w in
  (∀ p, p ∈ dom (store w) → ResponsePtr p ∉ leaves err →
        store run.2 !! p = store w !! p) ∧
  (∀ p, ResponsePtr p ∈ Errors run.1 →
        (p ∉ dom (store w)) ∧ (p ∈ dom (store run.2))).
Proof.
  intros run. subst run.
  destruct (processErrors err path method ip w) as [m w'] eqn:E.
  destruct (processErrors_store _ _ _ _ _ _ _ E) as [[_ Hs] Hm].
  split; [exact Hs | exact Hm].
Qed.

(** X6. No run of [processErrors] removes a stored response or changes its
    status, code, reason, resource, detail, path or root causes: each is
    still stored afterwards with at most a new timestamp, and unchanged if
    its timestamp value was not empty. *)
Theorem X6_responses_only_restamped err path method ip (w : World) p r :
  store w !! p = Some r →
  ∃ r', store (processErrors err path method ip w).2 !! p = Some r' ∧
        setDateTime r (dateTime r') = r' ∧
        (Value (dateTime r) ≠ "" → r' = r).
Proof. apply processErrors_keeps. Qed.

(** X7. For every error that is neither a MultipleErrors nor a Raw, the
    status code of the result is the status code inside its single
    response. *)
Theorem X7_status_matches_body err path method ip (w : World) :
  (∀ sc es, err ≠ Multiple sc es) → (∀ sc e, err ≠ Raw sc e) →
  ∃ p r,
    Errors (processErrors err path method ip w).1 = [ResponsePtr p] ∧
    store (processErrors err path method ip w).2 !! p = Some r ∧
    MStatusCode (processErrors err path method ip w).1 = StatusCode r.
Proof.
  intros Hm Hr.
  destruct (processErrors_leaf_response err path method ip w Hm Hr)
    as (p & r & Hres & Hst).
  exists p, r. rewrite Hres. by split_and!.
Qed.

(** X8. EntityAlreadyExists is a success only as the handler's own error:
    given to [processErrors], as it is when it sits inside a
    MultipleErrors, it is normalized to status 500 with code
    "Internal Server Error" and its own message, and a request that
    returns it inside a MultipleErrors with a nil payload counts one
    fault. *)
Theorem X8_nested_already_exists path method ip (w : World)
    sc routeTemplate r_Method :
  yields EntityAlreadyExists path method ip w
         500 "Internal Server Error" (Error (store w) EntityAlreadyExists) ∧
  ∃ cs res err',
    calls (respondTo clock Error Nil (Some (Multiple sc [EntityAlreadyExists]))
             routeTemplate r_Method w).2
      = calls w ++ cs ++ [Respond res err'] ∧
    increments cs = 1%nat.
Proof.
  split; [by apply taxonomy_yields |].
  destruct (respondTo_calls Nil (Some (Multiple sc [EntityAlreadyExists]))
              routeTemplate r_Method w)
    as (cs & res & err' & Hc & _ & Hn & _).
  by exists cs, res, err'.
Qed.

Lemma processErrors_ResponsePtr_kept v r path method ip (w : World) :
  store w !! v = Some r → Value (dateTime r) ≠ "" →
  let q := fresh (dom (store w)) in
  ∃ cs,
    processErrors (ResponsePtr v) path method ip w =
    (mkMultipleErrors (StatusCode r) [ResponsePtr q],
     mkWorld (S (readings w)) (<[q := r]> (store w)) (calls w ++ cs)).
Proof.
  intros Hv Hval q.
  destruct (processErrors_ResponsePtr v path method ip w) as [cs ->].
  rewrite (lookup_total_correct _ _ _ Hv).
  rewrite bool_decide_eq_false_2 by done.
  rewrite (lookup_total_correct _ _ _ Hv). by exists cs.
Qed.

Lemma processErrors_ResponsePtr_stamped v r path method ip (w : World) :
  store w !! v = Some r → Value (dateTime r) = "" →
  let r' := setDateTime r (stamp (clock (readings w))) in
  let q := fresh (dom (<[v := r']> (store w))) in
  ∃ cs,
    processErrors (ResponsePtr v) path method ip w =
    (mkMultipleErrors (StatusCode r) [ResponsePtr q],
     mkWorld (S (readings w)) (<[q := r']> (<[v := r']> (store w)))
             (calls w ++ cs)).
Proof.
  intros Hv Hval r' q.
  destruct (processErrors_ResponsePtr v path method ip w) as [cs ->].
  rewrite (lookup_total_correct _ _ _ Hv).
  rewrite bool_decide_eq_true_2 by done.
  rewrite lookup_total_insert_eq. by exists cs.
Qed.

(** X9. A response is stamped at most once. After a first run on a pointer
    to it, taken when the clock's formatted time is not empty, a second run
    on the same pointer, at a later time and for any path, method and
    partial flag, leaves the caller's object as the first run left it, and
    the copies both runs return have the timestamp of the first. *)
Theorem X9_stamped_once v r path1 method1 ip1 path2 method2 ip2 (w : World) :
  store w !! v = Some r →
  UTC_Format_RFC3339 (clock (readings w)) ≠ "" →
  let run1 := processErrors (ResponsePtr v) path1 method1 ip1 w in
  let run2 := processErrors (ResponsePtr v) path2 method2 ip2 run1.2 in
  ∃ r1 q1 q2,
    store run1.2 !! v = Some r1 ∧
    store run2.2 !! v = Some r1 ∧
    Errors run1.1 = [ResponsePtr q1] ∧
    Errors run2.1 = [ResponsePtr q2] ∧
    q1 ≠ q2 ∧
    store run2.2 !! q1 = Some r1 ∧
    store run2.2 !! q2 = Some r1.
Proof.
  intros Hv Hclock run1 run2.
  assert (H1 : ∃ r1 q1 σ1 cs1,
             run1 = (mkMultipleErrors (StatusCode r) [ResponsePtr q1],
                     mkWorld (S (readings w)) σ1 (calls w ++ cs1)) ∧
             σ1 !! v = Some r1 ∧ σ1 !! q1 = Some r1 ∧
             Value (dateTime r1) ≠ "").
  { subst run1 run2.
    destruct (decide (Value (dateTime r) = "")) as [Hempty | Hfull].
    - destruct (processErrors_ResponsePtr_stamped v r path1 method1 ip1 w
                  Hv Hempty) as [cs ->].
      exists (setDateTime r (stamp (clock (readings w)))).
      eexists _, _, cs. split_and!; [reflexivity | | | exact Hclock].
      + rewrite lookup_insert_ne, lookup_insert_eq; [done |].
        apply fresh_ne. rewrite dom_insert_L. set_solver.
      + apply lookup_insert_eq.
    - destruct (processErrors_ResponsePtr_kept v r path1 method1 ip1 w
                  Hv Hfull) as [cs ->].
      exists r. eexists _, _, cs. split_and!; [reflexivity | | | done].
      + rewrite lookup_insert_ne; [done |].
        apply fresh_ne, elem_of_dom. eauto.
      + apply lookup_insert_eq. }
  destruct H1 as (r1 & q1 & σ1 & cs1 & Hrun1 & Hv1 & Hq1 & Hval1).
  subst run2. rewrite Hrun1. cbn [fst snd].
  match goal with
  | |- context [processErrors _ _ _ _ ?w1] =>
      destruct (processErrors_ResponsePtr_kept v r1 path2 method2 ip2 w1
                  Hv1 Hval1) as [cs2 ->]
  end.
  cbn. exists r1, q1, (fresh (dom σ1)).
  assert (Hne1 : fresh (dom σ1) ≠ v) by (apply fresh_ne, elem_of_dom; eauto).
  assert (Hne2 : fresh (dom σ1) ≠ q1) by (apply fresh_ne, elem_of_dom; eauto).
  split_and!; try done.
  - by rewrite lookup_insert_ne.
  - by rewrite lookup_insert_ne.
  - apply lookup_insert_eq.
Qed.

Lemma range_no_leaves path method ip l :
  Forall (λ v, leaves v = [] → ∀ w : World, ∃ n,
            processErrors v path method ip w =
            (mkMultipleErrors (MStatusCode
                                 (processErrors v path method ip w).1) [],
             mkWorld (readings w + n) (store w) (calls w))) l →
  flat_map leaves l = [] →
  ∀ w : World, ∃ n,
    range (λ v, processErrors v path method ip) l [] w =
    ([], mkWorld (readings w + n) (store w) (calls w)).
Proof.
  induction 1 as [|v l Hv _ IH]; intros Hnil w.
  - exists 0%nat. cbn. unfold ret. destruct w. cbn. by rewrite Nat.add_0_r.
  - cbn in Hnil. apply app_eq_nil in Hnil as [Hv0 Hl0].
    rewrite range_cons. destruct (Hv Hv0 w) as [n1 ->].
    destruct (IH Hl0 (mkWorld (readings w + n1) (store w) (calls w)))
      as [n2 ->].
    cbn. exists (n1 + n2)%nat. by rewrite Nat.add_assoc.
Qed.

Lemma processErrors_no_leaves err : leaves err = [] →
  ∀ path method ip (w : World), ∃ n,
    processErrors err path method ip w =
    (mkMultipleErrors (MStatusCode (processErrors err path method ip w).1) [],
     mkWorld (readings w + n) (store w) (calls w)).
Proof.
  induction err as [q|q|en i|f pa|mt u|v|sc errs IH|e|sc e| |t]
    using error_nested_ind; cbn [leaves]; try discriminate.
  intros Hnil path method ip w. rewrite processErrors_Multiple.
  destruct (range_no_leaves path method ip errs
              ltac:(eapply Forall_impl; [exact IH | cbn; auto])
              Hnil (twoReadings w)) as [n ->].
  cbn. exists (2 + n)%nat. do 2 f_equal. lia.
Qed.

(** X19. An input without leaves, an empty MultipleErrors or empty ones
    nested in one another, gives an empty result under the declared status
    code of the outermost one; nothing is stored, logged or counted, only
    the clock is read. *)
Theorem X19_no_leaves sc errs path method ip (w : World) :
  leaves (Multiple sc errs) = [] →
  ∃ n,
    processErrors (Multiple sc errs) path method ip w =
    (mkMultipleErrors sc [], mkWorld (readings w + n) (store w) (calls w)).
Proof.
  intros Hnil.
  destruct (processErrors_no_leaves _ Hnil path method ip w) as [n Hrun].
  exists n. rewrite Hrun at 1.
  by rewrite processErrors_status_Multiple.
Qed.

End gofr_facts.

(** ** The trailing slash of the route template *)

Section path_facts.
Context {any : Type}.
Context (clock : nat → Time).
Context (Error : gmap loc (Response any) → error → string).

Lemma string_length_app (s t : string) :
  String.length (s ++ t)%string = (String.length s + String.length t)%nat.
Proof. induction s as [|c s IH]; simpl; [done | by f_equal]. Qed.

Lemma substring_whole (t : string) :
  String.substring 0 (String.length t) t = t.
Proof. induction t as [|c t IH]; simpl; [done | by f_equal]. Qed.

Lemma substring_prefix_app (s t : string) :
  String.substring 0 (String.length s) (s ++ t)%string = s.
Proof.
  induction s as [|c s IH]; simpl; [by destruct t | by f_equal].
Qed.

Lemma substring_suffix_app (s t : string) :
  String.substring (String.length s) (String.length t) (s ++ t)%string = t.
Proof.
  induction s as [|c s IH]; simpl; [apply substring_whole | exact IH].
Qed.

Lemma TrimSuffix_app (s suffix : string) :
  strings.TrimSuffix (s ++ suffix)%string suffix = s.
Proof.
  unfold strings.TrimSuffix, strings.HasSuffix.
  rewrite string_length_app.
  replace (String.length s + String.length suffix - String.length suffix)%nat
    with (String.length s) by lia.
  rewrite substring_suffix_app, String.eqb_refl, substring_prefix_app.
  rewrite andb_true_r.
  destruct (Nat.leb_spec (String.length suffix)
              (String.length s + String.length suffix)); [done | lia].
Qed.

(** X10. A route template and the same template followed by one slash are
    dispatched alike: the path given to [processErrors], and so every label
    and every response, is the same. Only one slash is removed. *)
Theorem X10_trailing_slash_ignored data err routeTemplate r_Method
    (w : World any) :
  strings.HasSuffix routeTemplate "/" = false →
  respondTo clock Error data err (routeTemplate ++ "/")%string r_Method w
  = respondTo clock Error data err routeTemplate r_Method w.
Proof.
  intros Hno. unfold respondTo.
  rewrite TrimSuffix_app. unfold strings.TrimSuffix. rewrite Hno.
  reflexivity.
Qed.

End path_facts.

(** ** Properties of the publisher *)

Section mqtt_facts.
Context {paho_Client value tokenError : Type}.
Context (publishError :
           paho_Client → string → Z → bool → value → option tokenError).

Import mqtt.
Abbreviation PublishEvent := (PublishEvent publishError).

(** C10. With a client, [PublishEvent] publishes the value once, to the
    topic and with the quality of service of the configuration, whatever
    key and headers the caller passes; without a client it publishes
    nothing and returns the error "client not configured". *)
Theorem C10_publish_to_configured_topic (client : paho_Client)
    (cfg : Config) key (v : value) headers cs :
  (∃ after,
     (PublishEvent (mkMQTT (Some client) cfg) key v headers cs).2
       = cs ++ Client_Publish client (Topic cfg) (QoS cfg) false v
               :: after ∧
     List.filter isPublish after = [] ∧
     ∀ key' headers',
       PublishEvent (mkMQTT (Some client) cfg) key' v headers' cs
       = PublishEvent (mkMQTT (Some client) cfg) key v headers cs) ∧
  PublishEvent (mkMQTT None cfg) key v headers cs
    = (Some (errors_Error "client not configured"),
       cs ++ [Logger_Debug "client not configured"]) ∧
  List.filter isPublish
    (PublishEvent (mkMQTT None cfg) key v headers cs).2
    = List.filter isPublish cs.
Proof.
  split_and!.
  - unfold PublishEvent; cbn.
    destruct (publishError client (Topic cfg) (QoS cfg) false v); cbn;
      rewrite <- ?app_assoc; cbn; eexists;
      (split_and!; [reflexivity | reflexivity | reflexivity]).
  - reflexivity.
  - cbn. rewrite List.filter_app. cbn. by rewrite app_nil_r.
Qed.

End mqtt_facts.

(** ** Properties of the life cycle of the adapter *)

Section mqtt_life_cycle.
Context {paho_Client value tokenError : Type}.
Context (publishError :
           paho_Client → string → Z → bool → value → option tokenError).
Context (NewClientOptions : @mqtt.ClientOptions paho_Client tokenError).
Context (NewClient : @mqtt.ClientOptions paho_Client tokenError → paho_Client).
Context (connectToken : paho_Client → bool * option tokenError).
Context (connectErrorUnwaited : paho_Client → option tokenError).
Context (subscribeToken :
           paho_Client → string → Z → bool * option tokenError).
Context (firstMessage : paho_Client → string → Z → option (string * string)).
Context (datastore_Mqtt pkg_StatusDown pkg_StatusUp : string).

Import mqtt.
Abbreviation PublishEvent := (PublishEvent publishError).
Abbreviation newOptions := (newOptions NewClientOptions).
Abbreviation New := (New NewClientOptions NewClient connectToken).
Abbreviation Ping := (Ping connectErrorUnwaited).
Abbreviation Subscribe := (Subscribe subscribeToken firstMessage).
Abbreviation HealthCheck :=
  (HealthCheck connectErrorUnwaited datastore_Mqtt pkg_StatusDown
               pkg_StatusUp).
Abbreviation MQTT := (@MQTT paho_Client).

(** X11. [PublishEvent] returns nil exactly when there is a client and the
    broker reported no error for the publication; an error of the broker is
    returned as it is, and only then. *)
Theorem X11_publish_result (m : MQTT) key (v : value) headers cs :
  ((PublishEvent m key v headers cs).1 = None ↔
   ∃ c, Client m = Some c ∧
        publishError c (Topic (config m)) (QoS (config m)) false v = None) ∧
  (∀ e, (PublishEvent m key v headers cs).1 = Some (token_Error e) ↔
        ∃ c, Client m = Some c ∧
             publishError c (Topic (config m)) (QoS (config m)) false v
             = Some e).
Proof.
  unfold mqtt.PublishEvent. destruct m as [[c|] cfg]; cbn.
  - destruct (publishError c (Topic cfg) (QoS cfg) false v) as [e0|] eqn:E;
      cbn; split.
    + split; [discriminate |]. intros (c' & [= <-] & Hc). congruence.
    + intros e. split.
      * intros [= ->]. eauto.
      * intros (c' & [= <-] & Hc). congruence.
    + split; [eauto |]. done.
    + intros e. split; [discriminate |].
      intros (c' & [= <-] & Hc). congruence.
  - split.
    + split; [discriminate |]. intros (c' & Hc & _). discriminate.
    + intros e. split; [discriminate |]. intros (c' & Hc & _). discriminate.
Qed.

(** X12. [HealthCheck] always returns, also on a nil receiver and without a
    client. It reports up exactly when there is a client whose [Connect]
    token shows no error, and then [IsSet] holds; it names the host and the
    topic of the configuration unless the receiver is nil. *)
Theorem X12_health_status (m : option MQTT) es :
  pkg_StatusUp ≠ pkg_StatusDown →
  ∃ h es',
    HealthCheck m es = Returns h es' ∧
    Name h = datastore_Mqtt ∧
    (Status h = pkg_StatusUp ∨ Status h = pkg_StatusDown) ∧
    (Status h = pkg_StatusUp ↔
     ∃ m0 c, m = Some m0 ∧ Client m0 = Some c ∧
             connectErrorUnwaited c = None) ∧
    (Status h = pkg_StatusUp → IsSet m = true) ∧
    match m with
    | None => Host h = "" ∧ Database h = ""
    | Some m0 =>
        Host h = Hostname (config m0) ∧ Database h = Topic (config m0)
    end.
Proof.
  intros Hne. unfold mqtt.HealthCheck, mqtt.Ping, IsSet.
  destruct m as [[[c|] cfg]|]; cbn;
    [destruct (connectErrorUnwaited c) as [e|] eqn:E; cbn | |];
    eexists _, _; (split; [reflexivity |]); cbn;
    split_and!; auto;
    try (intros Hup; by destruct Hne);
    (split;
     [ intros Hup; first [by destruct Hne | by eexists _, _]
     | intros (m0 & c' & Hm & Hc & He); simplify_eq; cbn in *;
       congruence ]).
Qed.

(** X13. [HealthCheck] keeps the events made before it; it connects once
    when there is a client and never otherwise, and it logs one error when a
    non-nil adapter has no client or its [Connect] token shows an error, and
    nothing otherwise. *)
Theorem X13_health_effects (m : option MQTT) es :
  ∃ h es1,
    HealthCheck m es = Returns h (es ++ es1) ∧
    length (List.filter isConnect es1) = (if IsSet m then 1 else 0)%nat ∧
    length (List.filter isErrorf es1) =
      match m with
      | None => 0%nat
      | Some m0 =>
          match Client m0 with
          | None => 1%nat
          | Some c =>
              match connectErrorUnwaited c with
              | Some _ => 1%nat
              | None => 0%nat
              end
          end
      end.
Proof.
  unfold mqtt.HealthCheck, mqtt.Ping, IsSet.
  destruct m as [[[c|] cfg]|]; cbn.
  - destruct (connectErrorUnwaited c) as [e|]; cbn;
      rewrite <- ?app_assoc; eexists _, _;
      (split; [reflexivity |]); split; reflexivity.
  - eexists _, _; (split; [reflexivity |]); split; reflexivity.
  - exists (mkHealth datastore_Mqtt pkg_StatusDown "" ""), [].
    rewrite app_nil_r. split_and!; reflexivity.
Qed.

(** X14. [New] keeps the configuration it was given; it returns an adapter
    with a client exactly when it returns no error, makes one connection
    attempt and waits for it, and logs one line. *)
Theorem X14_new_client_iff_no_error (cfg : Config) es :
  let r := New cfg es in
  config r.1.1 = cfg ∧
  (r.1.2 = None ↔ IsSet (Some r.1.1) = true) ∧
  (r.1.2 = None → Client r.1.1 = Some (NewClient (newOptions cfg))) ∧
  ∃ line,
    r.2 = es ++ [Connect (NewClient (newOptions cfg)); Wait; line] ∧
    (isErrorf line = true ↔ r.1.2 ≠ None).
Proof.
  unfold mqtt.New, IsSet.
  destruct (connectToken (NewClient (newOptions cfg))) as [[|] [e|]]; cbn;
    rewrite <- ?app_assoc; cbn;
    (split_and!; [reflexivity | | | eexists; split; [reflexivity |]]);
    try done; split; try done; try discriminate.
  all: by intros H; destruct H.
Qed.

(** X15. The options [New] builds name one broker, "tcp://host:port",
    whatever the protocol of the configuration, and depend on neither the
    protocol, the topic nor the quality of service; user name and password
    replace those of the library only when they are not empty. *)
Theorem X15_options (cfg : Config) :
  Servers (newOptions cfg)
    = Servers NewClientOptions
      ++ [("tcp://" +:+ Hostname cfg +:+ ":" +:+ Itoa (Port cfg))] ∧
  o_Username (newOptions cfg)
    = (if decide (Username cfg = "") then o_Username NewClientOptions
       else Username cfg) ∧
  o_Password (newOptions cfg)
    = (if decide (Password cfg = "") then o_Password NewClientOptions
       else Password cfg) ∧
  o_ClientID (newOptions cfg) = ClientID cfg ∧
  o_Order (newOptions cfg) = Order cfg ∧
  ∀ protocol topic qos,
    newOptions (mkConfig protocol (Hostname cfg) (Port cfg) (Username cfg)
                  (Password cfg) (ClientID cfg) topic qos (Order cfg)
                  (ConnectionRetryDuration cfg))
    = newOptions cfg.
Proof.
  unfold mqtt.newOptions. cbv zeta.
  cbn [Hostname Port Username Password ClientID Order
       ConnectionRetryDuration].
  destruct (String.eqb (Username cfg) "") eqn:Eu;
    destruct (String.eqb (Password cfg) "") eqn:Ep;
    cbn [negb];
    first [apply String.eqb_eq in Eu | apply String.eqb_neq in Eu];
    first [apply String.eqb_eq in Ep | apply String.eqb_neq in Ep];
    (split_and!;
     [ reflexivity
     | by case_decide
     | by case_decide
     | reflexivity
     | reflexivity
     | intros; reflexivity ]).
Qed.

(** X16. A retry duration between 0 and 9223372036 seconds gives that many
    seconds as the retry interval of the options, in nanoseconds, without
    overflow. *)
Theorem X16_retry_interval (cfg : Config) :
  (0 ≤ ConnectionRetryDuration cfg ≤ 9223372036)%Z →
  ConnectRetryInterval (newOptions cfg)
    = 1000000000 * ConnectionRetryDuration cfg.
Proof.
  intros Hd. unfold mqtt.newOptions. cbv zeta.
  destruct (negb _), (negb _);
    change (wrap64 (time_Second * ConnectionRetryDuration cfg)
            = 1000000000 * ConnectionRetryDuration cfg);
    unfold wrap64, time_Second; rewrite Z.mod_small; lia.
Qed.

(** X17. How [Subscribe] ends. It panics exactly when there is no client,
    after it has counted a reception. When it returns an error it returns no
    message and has counted one failure; when it returns no error it returns
    the first message the broker delivered, payload and topic, and has
    counted a success on the publish counter. It waits for ever when the
    subscription went through and no message comes. *)
Theorem X17_subscribe_outcomes (m : MQTT) es :
  let topic := Topic (config m) in
  let qos := QoS (config m) in
  match Subscribe m es with
  | Panics es' =>
      Client m = None ∧ es' = es ++ [SubscribeReceiveCount topic ""]
  | Returns (msg, Some e) es' =>
      msg = None ∧
      ∃ c, Client m = Some c ∧ subscribeToken c topic qos = (true, Some e) ∧
           es' = es ++ [SubscribeReceiveCount topic "";
                        ClientSubscribe c topic qos; Wait;
                        SubscribeFailureCount topic ""]
  | Returns (msg, None) es' =>
      ∃ c payload from,
        Client m = Some c ∧
        firstMessage c topic qos = Some (payload, from) ∧
        msg = Some (mkMessage payload from) ∧
        es' = es ++ [SubscribeReceiveCount topic "";
                     ClientSubscribe c topic qos; Wait;
                     PublishSuccessCount topic ""; ChannelReceive]
  | Blocks es' =>
      ∃ c, Client m = Some c ∧ firstMessage c topic qos = None ∧
           es' = es ++ [SubscribeReceiveCount topic "";
                        ClientSubscribe c topic qos; Wait;
                        PublishSuccessCount topic ""]
  end.
Proof.
  unfold mqtt.Subscribe. destruct m as [[c|] cfg]; cbn; [| done].
  destruct (subscribeToken c (Topic cfg) (QoS cfg)) as [[|] [e|]] eqn:Et;
    cbn; try (split; [done |]; exists c; rewrite <- !app_assoc; by cbn);
    destruct (firstMessage c (Topic cfg) (QoS cfg)) as [[payload from]|]
      eqn:Ef; cbn; rewrite <- !app_assoc; cbn; eauto 10.
Qed.

(** X18. After a [New] that failed to connect, the adapter it returned
    refuses to publish with the error "client not configured", reports
    itself unset and down, and panics on [Ping] and on [Subscribe]. *)
Theorem X18_after_failed_new (cfg : Config) e es key (v : value) headers cs
    es2 :
  connectToken (NewClient (newOptions cfg)) = (true, Some e) →
  let m := (New cfg es).1.1 in
  (New cfg es).1.2 = Some e ∧
  IsSet (Some m) = false ∧
  PublishEvent m key v headers cs
    = (Some (errors_Error "client not configured"),
       cs ++ [Logger_Debug "client not configured"]) ∧
  Ping m es2 = Panics es2 ∧
  Subscribe m es2 = Panics (es2 ++ [SubscribeReceiveCount (Topic cfg) ""]) ∧
  HealthCheck (Some m) es2
    = Returns (mkHealth datastore_Mqtt pkg_StatusDown (Hostname cfg)
                        (Topic cfg))
              (es2 ++ [Errorf "%v"
                         [AHealthCheckFailed datastore_Mqtt
                            "client is not initialized" None]]).
Proof.
  intros Ht. unfold mqtt.New. rewrite Ht. cbn. split_and!; reflexivity.
Qed.

End mqtt_life_cycle.

(** ** The handler and the publisher on concrete inputs *)

Section concrete.

Abbreviation processErrors := (processErrors sample.clock sample.Error).
Abbreviation respondTo := (respondTo sample.clock sample.Error).
Abbreviation ServeHTTP := (ServeHTTP sample.clock sample.Error).

Example nested_in_leaf_order :
  let run := processErrors sample.nested "/user" "GET" false sample.w1 in
  MStatusCode run.1 = 422 ∧
  sample.shown run =
    [(400, "Invalid Parameter", "Incorrect value for parameter");
     (500, "Internal Server Error", "DB Error");
     (418, "TEAPOT", "short and stout");
     (500, "Internal Server Error", "boom")].
Proof. vm_compute. split; reflexivity. Qed.

Example empty_list_gives_empty_result :
  (processErrors (Multiple 207 []) "/user" "GET" false sample.w0).1
  = mkMultipleErrors 207 [].
Proof. reflexivity. Qed.

Example row_not_found_is_redacted :
  let run := processErrors (DB (Some (Unclassified "row not found")))
               "/user" "GET" true sample.w0 in
  sample.shown run = [(500, "Internal Server Error", "DB Error")] ∧
  calls run.2 =
    [Logger_Errorf "DB error occurred %v" "row not found";
     Logger_Errorf "error occurred %v" "DB Error";
     ErrorTypesStats_Inc (mkLabel "DB error" "/user" "GET")].
Proof. vm_compute. split; reflexivity. Qed.

Example publish_ignores_the_key :
  mqtt.PublishEvent (λ _ _ _ _ _, None : option string)
    (mqtt.mkMQTT (Some "broker") (mqtt.mkConfig "tcp" "localhost" 1883 "" ""
                                    "gofr" "orders" 1 false 5))
    "payments" "hello" ∅ []
  = (None, [mqtt.Client_Publish "broker" "orders" 1 false "hello";
            mqtt.Token_Wait]).
Proof. reflexivity. Qed.

Example trailing_slash_is_trimmed :
  strings.TrimSuffix "/user/" "/" = "/user" ∧
  strings.TrimSuffix "/user" "/" = "/user" ∧
  strings.TrimSuffix "" "/" = "".
Proof. vm_compute. split_and!; reflexivity. Qed.

Example nested_entries_and_their_leaves :
  let run := processErrors sample.nested "/user" "GET" false sample.w1 in
  Errors run.1 = [ResponsePtr 2%positive; ResponsePtr 3%positive;
                  ResponsePtr 4%positive; ResponsePtr 5%positive] ∧
  map fst (reached sample.clock sample.Error sample.nested
             "/user" "GET" false sample.w1)
  = [InvalidParam ["id"]; DB (Some (Unclassified "row not found"));
     ResponsePtr 1%positive; Unclassified "boom"].
Proof. vm_compute. split; reflexivity. Qed.

(** The entries are tied to their leaves and to their places: the copies of
    two stored responses, listed in the other order, are not the entries of
    the leaves the run reaches. *)
Example swapped_entries_are_not_the_entries_of_the_leaves :
  let w := mkWorld 0 {[1%positive := sample.teapot;
                       2%positive := zeroResponse]} [] in
  let err := Multiple 400 [ResponsePtr 1%positive; ResponsePtr 2%positive] in
  let run := processErrors err "/user" "GET" false w in
  Errors run.1 = [ResponsePtr 3%positive; ResponsePtr 4%positive] ∧
  ¬ Forall2 (entryOf sample.clock sample.Error "/user" "GET" false
               (store run.2))
            (reached sample.clock sample.Error err "/user" "GET" false w)
            [ResponsePtr 4%positive; ResponsePtr 3%positive].
Proof.
  split; [vm_compute; reflexivity |].
  intros H. apply Forall2_cons_1 in H as [(p & r & Hp & Hone & _) _].
  injection Hp as <-. vm_compute in Hone. discriminate.
Qed.

(** C1 as stated does not hold: a Raw error next to a sibling inside a
    MultipleErrors does not come back alone under its own status code. *)
Lemma C1_counterexample :
  (processErrors (Multiple 400 [Raw 500 None; InvalidParam ["id"]])
     "/user" "GET" false sample.w0).1
  ≠ mkMultipleErrors 500 [Raw 500 None].
Proof. vm_compute. discriminate. Qed.

Lemma C1_witness :
  leaves sample.withRaw !! 1%nat = Some (Raw 502 None) ∧
  Errors (processErrors sample.withRaw "/user" "GET" false sample.w0).1
    !! 1%nat = Some (Raw 502 None).
Proof.
  split; [reflexivity |].
  apply (proj2 (proj2 (proj2
           (C1_raw_kept_in_place sample.clock sample.Error
              "/user" "GET" false sample.w0)
           400 [InvalidParam ["id"];
                Multiple 409 [Raw 502 None; Unclassified "late"]]))).
  reflexivity.
Defined.

(** C2 as stated does not hold: a DatabaseError next to a non-nil payload
    increments the fault counter. *)
Lemma C2_counterexample :
  increments
    (calls (respondTo (OtherData "partial rows")
              (Some (DB (Some (Unclassified "row not found"))))
              "/user/" "GET" sample.w0).2)
  ≠ 0%nat.
Proof. vm_compute. discriminate. Qed.

(** C5 as stated does not hold: [&errors.Response{}] is emitted with status
    code 0 and an empty reason, and an error of no known type whose message
    is empty is emitted with an empty reason. *)
Lemma C5_counterexample :
  (let run := processErrors (ResponsePtr 1%positive) "/user" "GET" false
                sample.wz in
   ∃ p r,
     Errors run.1 = [ResponsePtr p] ∧
     store run.2 !! p = Some r ∧
     StatusCode r = 0 ∧ Reason r = "") ∧
  (let run := processErrors (Unclassified "") "/user" "GET" false
                sample.w0 in
   ∃ p r,
     Errors run.1 = [ResponsePtr p] ∧
     store run.2 !! p = Some r ∧
     StatusCode r = 500 ∧ Reason r = "").
Proof.
  split.
  - exists 2%positive, (setDateTime zeroResponse
                          (mkDateTime "2024-05-01T10:00:00Z" "UTC")).
    vm_compute. split_and!; reflexivity.
  - exists 1%positive,
      (mkResponse 500 "Internal Server Error" "" "" None "" []
                  (mkDateTime "2024-05-01T10:00:00Z" "UTC")).
    vm_compute. split_and!; reflexivity.
Qed.

Lemma C9_witness :
  (∀ sc errs, Unclassified "boom" ≠ Multiple sc errs) ∧
  length (Errors (processErrors (Unclassified "boom") "/user" "GET" false
                    sample.w0).1) = 1%nat.
Proof.
  split; [intros sc errs; discriminate |].
  apply (proj1 (C9_single_unless_multiple sample.clock sample.Error
                  (Unclassified "boom") "/user" "GET" false sample.w0)).
  intros sc errs. discriminate.
Defined.

Lemma C8_witness :
  let h : Handler string := ret (OtherData "body", Some EntityAlreadyExists) in
  h sample.w0 = ((OtherData "body", Some EntityAlreadyExists), sample.w0) ∧
  (Some EntityAlreadyExists = None
   ∨ Some EntityAlreadyExists = Some EntityAlreadyExists) ∧
  ∃ res, ServeHTTP h "/user/" "POST" sample.w0 =
         (tt, addCalls sample.w0 [Respond res (Some EntityAlreadyExists)]).
Proof.
  intros h.
  assert (Hh : h sample.w0
               = ((OtherData "body", Some EntityAlreadyExists), sample.w0))
    by reflexivity.
  assert (He : Some EntityAlreadyExists = None
               ∨ Some EntityAlreadyExists = Some EntityAlreadyExists)
    by (right; reflexivity).
  split_and!; [exact Hh | exact He |].
  exact (proj1 (C8_success_passthrough sample.clock sample.Error h
                  (OtherData "body") (Some EntityAlreadyExists)
                  "/user/" "POST" sample.w0 sample.w0 Hh He)).
Defined.

Lemma C6_witness :
  store sample.w1 !! 1%positive = Some sample.teapot ∧
  UTC_Format_RFC3339 (sample.clock (readings sample.w1)) ≠ "" ∧
  Zone (sample.clock (readings sample.w1)) ≠ "" ∧
  let r := sample.teapot in
  let run := processErrors (ResponsePtr 1%positive) "/tea" "GET" false
               sample.w1 in
  ∃ p r',
    run.1 = mkMultipleErrors (StatusCode r) [ResponsePtr p] ∧
    p ≠ 1%positive ∧
    store run.2 !! p = Some r' ∧
    store run.2 !! 1%positive = Some r' ∧
    (StatusCode r' = StatusCode r ∧ Code r' = Code r ∧
     Reason r' = Reason r ∧ ResourceID r' = ResourceID r ∧
     Detail r' = Detail r ∧ Path r' = Path r ∧
     RootCauses r' = RootCauses r) ∧
    (Value (dateTime r) = "" →
       Value (dateTime r')
         = UTC_Format_RFC3339 (sample.clock (readings sample.w1)) ∧
       TimeZone (dateTime r') = Zone (sample.clock (readings sample.w1)) ∧
       Value (dateTime r') ≠ "" ∧ TimeZone (dateTime r') ≠ "") ∧
    (Value (dateTime r) ≠ "" → r' = r).
Proof.
  assert (H1 : store sample.w1 !! 1%positive = Some sample.teapot)
    by reflexivity.
  assert (H2 : UTC_Format_RFC3339 (sample.clock (readings sample.w1)) ≠ "")
    by (vm_compute; discriminate).
  assert (H3 : Zone (sample.clock (readings sample.w1)) ≠ "")
    by (vm_compute; discriminate).
  split_and!; [exact H1 | exact H2 | exact H3 |].
  exact (C6_preformed_timestamp sample.clock sample.Error 1%positive
           sample.teapot "/tea" "GET" false sample.w1 H1 H2 H3).
Defined.

Lemma C3_witness :
  (∀ rs re, Raw rs re ∉ leaves sample.nested) ∧
  (∀ p, ResponsePtr p ∈ leaves sample.nested → p ∈ dom (store sample.w1)) ∧
  let run := processErrors sample.nested "/user" "GET" false sample.w1 in
  let visited := reached sample.clock sample.Error sample.nested
                   "/user" "GET" false sample.w1 in
  MStatusCode run.1 = 422 ∧
  length (Errors run.1) = length (leaves sample.nested) ∧
  map fst visited = leaves sample.nested ∧
  Forall2 (entryOf sample.clock sample.Error "/user" "GET" false
             (store run.2))
          visited (Errors run.1) ∧
  Forall (λ out, ∀ sc' es, out ≠ Multiple sc' es) (Errors run.1).
Proof.
  assert (H1 : ∀ rs re, Raw rs re ∉ leaves sample.nested).
  { intros rs re H. cbn in H.
    repeat (apply elem_of_cons in H as [H | H]; [discriminate |]).
    by apply elem_of_nil in H. }
  assert (H2 : ∀ p, ResponsePtr p ∈ leaves sample.nested →
                    p ∈ dom (store sample.w1)).
  { intros p H. cbn in H.
    repeat (apply elem_of_cons in H as [H | H];
            [first [discriminate | injection H as ->] |]).
    - apply elem_of_dom. by exists sample.teapot.
    - by apply elem_of_nil in H. }
  split_and!; [exact H1 | exact H2 |].
  exact (C3_flattening sample.clock sample.Error 422
           [InvalidParam ["id"];
            Multiple 500 [DB (Some (Unclassified "row not found"));
                          ResponsePtr 1%positive];
            Unclassified "boom"]
           "/user" "GET" false sample.w1 H1 H2).
Defined.

Lemma X6_witness :
  store sample.w1 !! 1%positive = Some sample.teapot ∧
  ∃ r', store (processErrors sample.nested "/user" "GET" false sample.w1).2
          !! 1%positive = Some r' ∧
        setDateTime sample.teapot (dateTime r') = r' ∧
        (Value (dateTime sample.teapot) ≠ "" → r' = sample.teapot).
Proof.
  assert (H1 : store sample.w1 !! 1%positive = Some sample.teapot)
    by reflexivity.
  split; [exact H1 |].
  exact (X6_responses_only_restamped sample.clock sample.Error sample.nested
           "/user" "GET" false sample.w1 1%positive sample.teapot H1).
Defined.

Lemma X7_witness :
  (∀ sc es, DB None ≠ Multiple sc es) ∧
  (∀ sc e, DB None ≠ Raw sc e) ∧
  ∃ p r,
    Errors (processErrors (DB None) "/user" "GET" true sample.w0).1
      = [ResponsePtr p] ∧
    store (processErrors (DB None) "/user" "GET" true sample.w0).2 !! p
      = Some r ∧
    MStatusCode (processErrors (DB None) "/user" "GET" true sample.w0).1
      = StatusCode r.
Proof.
  assert (H1 : ∀ sc es, DB None ≠ Multiple sc es) by (intros; discriminate).
  assert (H2 : ∀ sc e, DB None ≠ Raw sc e) by (intros; discriminate).
  split_and!; [exact H1 | exact H2 |].
  exact (X7_status_matches_body sample.clock sample.Error (DB None)
           "/user" "GET" true sample.w0 H1 H2).
Defined.

Lemma X9_witness :
  store sample.w1 !! 1%positive = Some sample.teapot ∧
  UTC_Format_RFC3339 (sample.clock (readings sample.w1)) ≠ "" ∧
  let run1 := processErrors (ResponsePtr 1%positive) "/tea" "GET" false
                sample.w1 in
  let run2 := processErrors (ResponsePtr 1%positive) "/pot" "PUT" true
                run1.2 in
  ∃ r1 q1 q2,
    store run1.2 !! 1%positive = Some r1 ∧
    store run2.2 !! 1%positive = Some r1 ∧
    Errors run1.1 = [ResponsePtr q1] ∧
    Errors run2.1 = [ResponsePtr q2] ∧
    q1 ≠ q2 ∧
    store run2.2 !! q1 = Some r1 ∧
    store run2.2 !! q2 = Some r1.
Proof.
  assert (H1 : store sample.w1 !! 1%positive = Some sample.teapot)
    by reflexivity.
  assert (H2 : UTC_Format_RFC3339 (sample.clock (readings sample.w1)) ≠ "")
    by (vm_compute; discriminate).
  split_and!; [exact H1 | exact H2 |].
  exact (X9_stamped_once sample.clock sample.Error 1%positive sample.teapot
           "/tea" "GET" false "/pot" "PUT" true sample.w1 H1 H2).
Defined.

Lemma X10_witness :
  strings.HasSuffix "/user" "/" = false ∧
  respondTo Nil (Some (Unclassified "boom")) ("/user" ++ "/")%string "GET"
            sample.w0
  = respondTo Nil (Some (Unclassified "boom")) "/user" "GET" sample.w0.
Proof.
  assert (H1 : strings.HasSuffix "/user" "/" = false) by reflexivity.
  split; [exact H1 |].
  exact (X10_trailing_slash_ignored sample.clock sample.Error Nil
           (Some (Unclassified "boom")) "/user" "GET" sample.w0 H1).
Defined.

Lemma X12_witness :
  "UP" ≠ "DOWN" ∧
  ∃ h es',
    mqtt.HealthCheck mqtt_sample.connectErrorUnwaited "mqtt" "DOWN" "UP"
      (Some (mqtt.mkMQTT (Some "tcp://localhost:1883") mqtt_sample.cfgUp)) []
      = mqtt.Returns h es' ∧
    mqtt.Name h = "mqtt" ∧
    (mqtt.Status h = "UP" ∨ mqtt.Status h = "DOWN") ∧
    (mqtt.Status h = "UP" ↔
     ∃ m0 c, Some (mqtt.mkMQTT (Some "tcp://localhost:1883")
                     mqtt_sample.cfgUp) = Some m0 ∧
             mqtt.Client m0 = Some c ∧
             mqtt_sample.connectErrorUnwaited c = None) ∧
    (mqtt.Status h = "UP" →
     mqtt.IsSet (Some (mqtt.mkMQTT (Some "tcp://localhost:1883")
                         mqtt_sample.cfgUp)) = true) ∧
    mqtt.Host h = mqtt.Hostname mqtt_sample.cfgUp ∧
    mqtt.Database h = mqtt.Topic mqtt_sample.cfgUp.
Proof.
  assert (H1 : "UP" ≠ "DOWN") by discriminate.
  split; [exact H1 |].
  exact (X12_health_status mqtt_sample.connectErrorUnwaited "mqtt" "DOWN"
           "UP"
           (Some (mqtt.mkMQTT (Some "tcp://localhost:1883")
                    mqtt_sample.cfgUp)) [] H1).
Defined.

Lemma X16_witness :
  (0 ≤ mqtt.ConnectionRetryDuration mqtt_sample.cfgUp ≤ 9223372036)%Z ∧
  mqtt.ConnectRetryInterval
    (mqtt.newOptions mqtt_sample.NewClientOptions mqtt_sample.cfgUp)
  = 1000000000 * mqtt.ConnectionRetryDuration mqtt_sample.cfgUp.
Proof.
  assert (H1 : (0 ≤ mqtt.ConnectionRetryDuration mqtt_sample.cfgUp
                ≤ 9223372036)%Z) by (vm_compute; split; discriminate).
  split; [exact H1 |].
  exact (X16_retry_interval mqtt_sample.NewClientOptions mqtt_sample.cfgUp
           H1).
Defined.

Lemma X18_witness :
  let cfg := mqtt_sample.cfgDown in
  let e := "connection refused" in
  mqtt_sample.connectToken
    (mqtt_sample.NewClient
       (mqtt.newOptions mqtt_sample.NewClientOptions cfg))
  = (true, Some e) ∧
  let m := (mqtt.New mqtt_sample.NewClientOptions mqtt_sample.NewClient
              mqtt_sample.connectToken cfg []).1.1 in
  (mqtt.New mqtt_sample.NewClientOptions mqtt_sample.NewClient
     mqtt_sample.connectToken cfg []).1.2 = Some e ∧
  mqtt.IsSet (Some m) = false ∧
  mqtt.PublishEvent mqtt_sample.publishError m "key" "hello" ∅ []
    = (Some (mqtt.errors_Error "client not configured"),
       [] ++ [mqtt.Logger_Debug "client not configured"]) ∧
  mqtt.Ping mqtt_sample.connectErrorUnwaited m [] = mqtt.Panics [] ∧
  mqtt.Subscribe mqtt_sample.subscribeToken mqtt_sample.firstMessage m []
    = mqtt.Panics ([] ++ [mqtt.SubscribeReceiveCount (mqtt.Topic cfg) ""]) ∧
  mqtt.HealthCheck mqtt_sample.connectErrorUnwaited "mqtt" "DOWN" "UP"
    (Some m) []
    = mqtt.Returns (mqtt.mkHealth "mqtt" "DOWN" (mqtt.Hostname cfg)
                                  (mqtt.Topic cfg))
        ([] ++ [mqtt.Errorf "%v"
                  [mqtt.AHealthCheckFailed "mqtt"
                     "client is not initialized" None]]).
Proof.
  intros cfg e.
  assert (H1 : mqtt_sample.connectToken
                 (mqtt_sample.NewClient
                    (mqtt.newOptions mqtt_sample.NewClientOptions cfg))
               = (true, Some e)) by reflexivity.
  split; [exact H1 |].
  exact (X18_after_failed_new mqtt_sample.publishError
           mqtt_sample.NewClientOptions mqtt_sample.NewClient
           mqtt_sample.connectToken mqtt_sample.connectErrorUnwaited
           mqtt_sample.subscribeToken mqtt_sample.firstMessage
           "mqtt" "DOWN" "UP" cfg e [] "key" "hello" ∅ [] [] H1).
Defined.

Example new_then_publish_and_subscribe :
  let r := mqtt.New mqtt_sample.NewClientOptions mqtt_sample.NewClient
             mqtt_sample.connectToken mqtt_sample.cfgUp [] in
  r.1.2 = None ∧
  mqtt.PublishEvent mqtt_sample.publishError r.1.1 "ignored" "hello" ∅ []
    = (None, [mqtt.Client_Publish "tcp://localhost:1883" "orders" 1 false
                "hello";
              mqtt.Token_Wait]) ∧
  mqtt.Subscribe mqtt_sample.subscribeToken mqtt_sample.firstMessage r.1.1 []
    = mqtt.Returns (Some (mqtt.mkMessage "42" "orders"), None)
        [mqtt.SubscribeReceiveCount "orders" "";
         mqtt.ClientSubscribe "tcp://localhost:1883" "orders" 1;
         mqtt.Wait;
         mqtt.PublishSuccessCount "orders" "";
         mqtt.ChannelReceive].
Proof. vm_compute. split_and!; reflexivity. Qed.

Lemma X19_witness :
  leaves (Multiple 207 [Multiple 500 []; Multiple 0 [Multiple 404 []]]) = [] ∧
  ∃ n,
    processErrors (Multiple 207 [Multiple 500 []; Multiple 0 [Multiple 404 []]])
      "/user" "GET" false sample.w1
    = (mkMultipleErrors 207 [],
       mkWorld (readings sample.w1 + n) (store sample.w1) (calls sample.w1)).
Proof.
  assert (H1 : leaves (Multiple 207 [Multiple 500 [];
                                     Multiple 0 [Multiple 404 []]]) = [])
    by reflexivity.
  split; [exact H1 |].
  exact (X19_no_leaves sample.clock sample.Error 207
           [Multiple 500 []; Multiple 0 [Multiple 404 []]]
           "/user" "GET" false sample.w1 H1).
Defined.

End concrete.
